(** * genmod: the annotation driver and its printing helpers

    A shallow embedding of

      - [genmod/vcf_tools/print_variants.py]  ([print_variant] and the
        priority-taking [print_variant_for_sorting]),
      - [genmod/utils/print_variants.py]      ([print_variants] and the
        rank-score extracting [print_variant_for_sorting]),
      - [genmod/commands/annotate_variant.py] (the [annotate] driver: worker
        count, work queue, sentinels, joins, sort, emission, temp file).

    Python [str] values are Rocq strings (sequences of 8-bit characters),
    lists of fields are [list string], exceptions are an error result, and
    what a helper writes is a list of output events. *)

From Stdlib Require Import String Ascii List ZArith Bool Arith Lia.
From Stdlib Require Import Permutation DecimalString.
Import ListNotations.

Open Scope string_scope.
Open Scope list_scope.

(* ------------------------------------------------------------------ *)
(** ** Python string primitives used by the sources *)

Module Py.

Definition tab : ascii := "009"%char.
Definition newline : ascii := "010"%char.
Definition hash : ascii := "#"%char.

Definition TAB : string := String tab EmptyString.
Definition NL : string := String newline EmptyString.

  (** [str.isspace] on the code points below 256: TAB, LF, VT, FF, CR,
      the separators 0x1c-0x1f, SPACE, NEL (0x85) and NBSP (0xa0). *)
Definition isspace (c : ascii) : bool :=
    let n := nat_of_ascii c in
    (((9 <=? n) && (n <=? 13)) || ((28 <=? n) && (n <=? 32))
     || (n =? 133) || (n =? 160))%nat.

  (** [s.startswith(c)] for a one-character prefix. *)
Definition startswith (c : ascii) (s : string) : bool :=
    match s with
    | String d _ => Ascii.eqb d c
    | EmptyString => false
    end.

  (** [s.rstrip()]: drop the trailing whitespace. *)
Fixpoint rstrip (s : string) : string :=
    match s with
    | EmptyString => EmptyString
    | String c s' =>
        match rstrip s' with
        | EmptyString => if isspace c then EmptyString else String c EmptyString
        | r => String c r
        end
    end.

  (** [s.split(sep)] for a one-character separator: never empty, and
      [''.split(sep) == ['']]. *)
Fixpoint split (sep : ascii) (s : string) : list string :=
    match s with
    | EmptyString => [EmptyString]
    | String c s' =>
        if Ascii.eqb c sep then EmptyString :: split sep s'
        else match split sep s' with
             | f :: fs => String c f :: fs
             | [] => [String c EmptyString]
             end
    end.

  (** [sep.join(fields)]. *)
Fixpoint join (sep : string) (fields : list string) : string :=
    match fields with
    | [] => EmptyString
    | [f] => f
    | f :: rest => f ++ sep ++ join sep rest
    end.

  (** Truthiness of an optional string ([None] and [''] are falsy). *)
Definition truthy (o : option string) : bool :=
    match o with
    | Some (String _ _) => true
    | _ => false
    end.

  (** Exceptions the modelled code can raise. *)
Inductive exn := IndexError | ValueError | UnboundLocalError.

Inductive result (A : Type) : Type :=
  | Ok (a : A)
  | Raise (e : exn).
Arguments Ok {A} a.
Arguments Raise {A} e.

Definition bind {A B} (m : result A) (k : A -> result B) : result B :=
    match m with
    | Ok a => k a
    | Raise e => Raise e
    end.

  (** [l[n]] on a list. *)
Definition index {A} (l : list A) (n : nat) : result A :=
    match nth_error l n with
    | Some a => Ok a
    | None => Raise IndexError
    end.

  (** The two builtins on floating point numbers that the sources call:
      [float(s)] (which raises [ValueError] when [s] is no number) and the
      text [str.format] produces for a float. *)
Class FloatOps := {
    float : Type;
    float_of_string : string -> option float;
    string_of_float : float -> string
  }.

  (** Values handed to ["{0}".format]. *)
Inductive value `{FloatOps} :=
  | PyInt (z : Z)
  | PyFloat (f : float)
  | PyStr (s : string).

Definition format `{FloatOps} (v : value) : string :=
    match v with
    | PyInt z => NilZero.string_of_int (Z.to_int z)
    | PyFloat f => string_of_float f
    | PyStr s => s
    end.

  (** [float(s)]. *)
Definition to_float `{FloatOps} (s : string) : result value :=
    match float_of_string s with
    | Some f => Ok (PyFloat f)
    | None => Raise ValueError
    end.

  (** A file handle is known by the name of its file. *)
Definition handle := string.

  (** Output events: [outfile.write(text)] and [print(text)]. *)
Inductive event :=
  | Write (h : handle) (text : string)
  | Print (text : string).

End Py.

Import Py.

Notation "x <- m ;; k" := (bind m (fun x => k))
  (at level 61, m at next level, right associativity).

(* ------------------------------------------------------------------ *)
(** ** genmod/vcf_tools/print_variants.py *)

Module vcf_tools.

  (** The text of one printed variant: the fields of the stripped line,
      without the first one in mode ['modified']. *)
Definition printed_fields (variant_line mode : string) : list string :=
    let splitted_line := split tab (rstrip variant_line) in
    if String.eqb mode "modified" then tl splitted_line else splitted_line.

  (** [print_variant(variant_line, outfile=None, mode='vcf', silent=False)] *)
Definition print_variant (variant_line : string) (outfile : option handle)
      (mode : string) (silent : bool) : list event :=
    if negb (startswith hash variant_line) then
      let splitted_line := printed_fields variant_line mode in
      match outfile with
      | Some g => [Write g (join TAB splitted_line ++ NL)]
      | None =>
          if negb silent then [Print (join TAB splitted_line)] else []
      end
    else [].

  (** The text written by [print_variant_for_sorting]. *)
Definition sorting_text `{FloatOps} (variant_line : string) (priority : value)
      : string :=
    let variant_line := split tab variant_line in
    format priority ++ TAB ++ join TAB variant_line.

  (** [print_variant_for_sorting(variant_line, priority, outfile,
      family_id=None)]; [family_id] is not used by the body. *)
Definition print_variant_for_sorting `{FloatOps} (variant_line : string)
      (priority : value) (outfile : handle) (family_id : option string)
      : list event :=
    [Write outfile (sorting_text variant_line priority)].

End vcf_tools.

(* ------------------------------------------------------------------ *)
(** ** genmod/utils/print_variants.py *)

Module utils.

  (** [print_variants(variant_file, outfile=None, mode='modified',
      silent=False)]: [f] holds the lines read from [variant_file];
      [outfile] is a path, opened for appending when it is truthy. *)
Definition print_variants (f : list string) (outfile : option string)
      (mode : string) (silent : bool) : list event :=
    flat_map
      (fun line =>
         if negb (startswith hash line) then
           let line := split tab (rstrip line) in
           let line := if String.eqb mode "modified" then tl line else line in
           if truthy outfile then
             match outfile with
             | Some g => [Write g (join TAB line ++ NL)]
             | None => []
             end
           else if negb silent then [Print (join TAB line)] else []
         else [])
      f.

Section RankScore.
Context `{FloatOps}.

    (** The loop over the family annotations of one RankScore value:
        with a family id every matching entry overwrites the score, without
        one the first entry is taken and the loop is left. *)
Fixpoint family_loop (family_id : option string) (entries : list string)
        (rank_score : value) : result value :=
      match entries with
      | [] => Ok rank_score
      | family_annotation :: rest =>
          let family_annotation := split ":"%char family_annotation in
          if truthy family_id then
            fam <- index family_annotation 0 ;;
            if String.eqb (match family_id with Some i => i | None => "" end)
                 fam then
              score <- index family_annotation 1 ;;
              rank_score <- to_float score ;;
              family_loop family_id rest rank_score
            else family_loop family_id rest rank_score
          else
            score <- index family_annotation 1 ;;
            to_float score
      end.

    (** The loop over the annotations of the info field. [key] and [value]
        are locals that are bound by the first annotation of the shape
        [k=v] and keep their last binding afterwards; [None] is "not yet
        bound". *)
Fixpoint info_loop (family_id : option string) (annotations : list string)
        (key value : option string) (rank_score : Py.value)
        : result Py.value :=
      match annotations with
      | [] => Ok rank_score
      | info_annotation :: rest =>
          let info_annotation := split "="%char info_annotation in
          let '(key, value) :=
            if (length info_annotation =? 2)%nat
            then (nth_error info_annotation 0, nth_error info_annotation 1)
            else (key, value) in
          match key with
          | None => Raise UnboundLocalError
          | Some k =>
              if String.eqb k "RankScore" then
                match value with
                | None => Raise UnboundLocalError
                | Some v =>
                    rank_score <-
                      family_loop family_id (split ","%char v) rank_score ;;
                    info_loop family_id rest key value rank_score
                end
              else info_loop family_id rest key value rank_score
          end
      end.

    (** Lines 66-88: the rank score of a variant line. *)
Definition rank_score_of (variant_line : string)
        (family_id : option string) : result Py.value :=
      let variant_line := split tab variant_line in
      let rank_score := PyInt (-100) in
      info <- index variant_line 7 ;;
      info_loop family_id (split ";"%char info) None None rank_score.

    (** [print_variant_for_sorting(variant_line, outfile, family_id=None)] *)
Definition print_variant_for_sorting (variant_line : string)
        (outfile : handle) (family_id : option string)
        : result (list event) :=
      rank_score <- rank_score_of variant_line family_id ;;
      let variant_line := split tab variant_line in
      Ok [Write outfile (format rank_score ++ TAB ++ join TAB variant_line)].

End RankScore.

End utils.

(* ------------------------------------------------------------------ *)
(** ** genmod/commands/annotate_variant.py *)

Module annotate_variant.

(** Lines 99-101: the default of the [--processes] option. *)
Definition default_processes (cpu_count : Z) : Z := Z.min 4 cpu_count.

(** The five CADD file options ([click.Path] values or [None]). *)
Record cadd_options := {
  cadd_file : option string;
  cadd_1000g : option string;
  cadd_exac : option string;
  cadd_esp : option string;
  cadd_indels : option string
}.

(** Lines 189-209: the flag [any_cadd_file]. *)
Definition any_cadd_file (o : cadd_options) : bool :=
  let any_cadd_file := false in
  let any_cadd_file := if truthy (cadd_file o) then true else any_cadd_file in
  let any_cadd_file := if truthy (cadd_1000g o) then true else any_cadd_file in
  let any_cadd_file := if truthy (cadd_exac o) then true else any_cadd_file in
  let any_cadd_file := if truthy (cadd_esp o) then true else any_cadd_file in
  let any_cadd_file := if truthy (cadd_indels o) then true else any_cadd_file in
  any_cadd_file.

(** Lines 243-249: the number of annotation workers. *)
Definition num_annotators (o : cadd_options) (processes cpu_count : Z) : Z :=
  let num_annotators := processes in
  if any_cadd_file o then
    if (num_annotators =? Z.min 4 cpu_count)%Z then Z.min 8 cpu_count
    else num_annotators
  else num_annotators.

(** *** The pipeline of lines 239-323

    The driver, the annotation workers and the variant printer run side by
    side; a state of the whole is the driver's program point, the two
    queues, the workers, the printer and the temporary file. *)

(** Where the driver stands. *)
Inductive driver :=
| DSetup                       (* before line 256 *)
| DFeed (rest : list string)   (* the loop of lines 292-296 *)
| DStop (k : nat)              (* the loop of lines 300-301, [k] rounds left *)
| DJoinQueue                   (* line 303 *)
| DSignal                      (* line 304 *)
| DJoinPrinter                 (* line 305 *)
| DSort                        (* line 308 *)
| DEmit                        (* lines 311-320 *)
| DRemove                      (* line 323 *)
| DEnd                         (* returned *)
| DCrashed.                    (* left by an exception *)

(** An annotation worker: waiting in [get], holding a record, having pushed
    its result, holding the stop sign, or terminated. *)
Inductive worker :=
| WIdle
| WBusy (record : string)
| WAck
| WStop
| WDone.

(** The variant printer: not started, running, terminated. *)
Inductive printer := PIdle | PRun | PDone.

Record state := {
  drv : driver;
  variant_queue : list (option string);  (* JoinableQueue(maxsize=1000) *)
  unfinished_tasks : nat;                (* its counter of unfinished tasks *)
  results : list (option string);        (* Manager().Queue() *)
  annotators : list worker;
  var_printer : printer;
  temp_file : option (list string);      (* the lines of the file, if any *)
  created : nat;                         (* calls of NamedTemporaryFile *)
  pushed : list (option string);         (* history of variant_queue.put *)
  printed : list event                   (* what print_variant emitted *)
}.

Definition set_drv (d : driver) (s : state) : state :=
  {| drv := d; variant_queue := variant_queue s;
     unfinished_tasks := unfinished_tasks s; results := results s;
     annotators := annotators s; var_printer := var_printer s;
     temp_file := temp_file s; created := created s; pushed := pushed s;
     printed := printed s |}.

(** [variant_queue.put(job)] by the driver. *)
Definition put_job (job : option string) (s : state) : state :=
  {| drv := drv s; variant_queue := variant_queue s ++ [job];
     unfinished_tasks := S (unfinished_tasks s); results := results s;
     annotators := annotators s; var_printer := var_printer s;
     temp_file := temp_file s; created := created s;
     pushed := pushed s ++ [job]; printed := printed s |}.

Definition set_queue (q : list (option string)) (s : state) : state :=
  {| drv := drv s; variant_queue := q;
     unfinished_tasks := unfinished_tasks s; results := results s;
     annotators := annotators s; var_printer := var_printer s;
     temp_file := temp_file s; created := created s; pushed := pushed s;
     printed := printed s |}.

(** [variant_queue.task_done()]. *)
Definition task_done (s : state) : state :=
  {| drv := drv s; variant_queue := variant_queue s;
     unfinished_tasks := pred (unfinished_tasks s); results := results s;
     annotators := annotators s; var_printer := var_printer s;
     temp_file := temp_file s; created := created s; pushed := pushed s;
     printed := printed s |}.

Definition set_results (r : list (option string)) (s : state) : state :=
  {| drv := drv s; variant_queue := variant_queue s;
     unfinished_tasks := unfinished_tasks s; results := r;
     annotators := annotators s; var_printer := var_printer s;
     temp_file := temp_file s; created := created s; pushed := pushed s;
     printed := printed s |}.

Definition set_annotators (ws : list worker) (s : state) : state :=
  {| drv := drv s; variant_queue := variant_queue s;
     unfinished_tasks := unfinished_tasks s; results := results s;
     annotators := ws; var_printer := var_printer s;
     temp_file := temp_file s; created := created s; pushed := pushed s;
     printed := printed s |}.

Definition set_printer (p : printer) (s : state) : state :=
  {| drv := drv s; variant_queue := variant_queue s;
     unfinished_tasks := unfinished_tasks s; results := results s;
     annotators := annotators s; var_printer := p;
     temp_file := temp_file s; created := created s; pushed := pushed s;
     printed := printed s |}.

Definition set_temp (f : option (list string)) (s : state) : state :=
  {| drv := drv s; variant_queue := variant_queue s;
     unfinished_tasks := unfinished_tasks s; results := results s;
     annotators := annotators s; var_printer := var_printer s;
     temp_file := f; created := created s; pushed := pushed s;
     printed := printed s |}.

Definition set_printed (o : list event) (s : state) : state :=
  {| drv := drv s; variant_queue := variant_queue s;
     unfinished_tasks := unfinished_tasks s; results := results s;
     annotators := annotators s; var_printer := var_printer s;
     temp_file := temp_file s; created := created s; pushed := pushed s;
     printed := o |}.

(** Lines 256-285: the temporary file is created, the workers and the
    printer are started. *)
Definition start (rest : list string) (n : nat) (s : state) : state :=
  {| drv := DFeed rest; variant_queue := variant_queue s;
     unfinished_tasks := unfinished_tasks s; results := results s;
     annotators := repeat WIdle n; var_printer := PRun;
     temp_file := Some []; created := S (created s); pushed := pushed s;
     printed := printed s |}.

(** Replace the worker at position [i]. *)
Fixpoint update (i : nat) (w : worker) (ws : list worker) : list worker :=
  match ws, i with
  | [], _ => []
  | _ :: ws', O => w :: ws'
  | w0 :: ws', S i' => w0 :: update i' w ws'
  end.

(** [JoinableQueue(maxsize=1000)], line 239. *)
Definition maxsize : nat := 1000.

(** What the caller passes to the run. *)
Record arguments := {
  variant_file : list string;   (* the lines of the input *)
  workers : Z;                  (* [num_annotators] of line 252 *)
  outfile : option handle;
  silent : bool
}.

(** The collaborators of the driver that are not part of its module. *)
Record collaborators `{FloatOps} := {
  annotation : string -> string;     (* the annotation of one record *)
  priority : string -> value;        (* the sort key of an annotated record *)
  key_leb : string -> string -> bool;(* the order [sort_variants] sorts by *)
  sort_raises : bool;                (* [sort_variants] raises *)
  emit_raises : bool                 (* writing the output raises *)
}.

Section Pipeline.
Context `{FloatOps} (env : collaborators) (args : arguments).

(** Modelled from the spec: [sort_variants] (genmod/vcf_tools) is not under
    src/. Section 4.3: the sorter orders the spill file by the key
    comparator and is stable (equal keys keep their relative order); here
    as an insertion sort over the lines. *)
Fixpoint insert_line (x : string) (l : list string) : list string :=
  match l with
  | [] => [x]
  | y :: l' =>
      if key_leb env x y then x :: y :: l' else y :: insert_line x l'
  end.

Fixpoint sort_variants (l : list string) : list string :=
  match l with
  | [] => []
  | x :: l' => insert_line x (sort_variants l')
  end.

(** Lines 313-320: every line read back from the temporary file (with its
    line end) goes through [print_variant] in mode ['modified']. *)
Definition emit (f : list string) : list event :=
  flat_map
    (fun line =>
       vcf_tools.print_variant (line ++ NL) (outfile args) "modified"
         (silent args))
    f.

(** One step of the driver; [None] when it is blocked or has finished. *)
Definition exec_driver (s : state) : option state :=
  match drv s with
  | DSetup =>
      Some (start (variant_file args) (Z.to_nat (workers args)) s)
  | DFeed [] => Some (set_drv (DStop (Z.to_nat (workers args))) s)
  | DFeed (line :: rest) =>
      let line := rstrip line in
      if negb (startswith hash line) then
        if (length (variant_queue s) <? maxsize)%nat
        then Some (set_drv (DFeed rest) (put_job (Some line) s))
        else None
      else Some (set_drv (DFeed rest) s)
  | DStop (S k) =>
      if (length (variant_queue s) <? maxsize)%nat
      then Some (set_drv (DStop k) (put_job None s))
      else None
  | DStop O => Some (set_drv DJoinQueue s)
  | DJoinQueue =>
      if (unfinished_tasks s =? 0)%nat then Some (set_drv DSignal s) else None
  | DSignal =>
      Some (set_drv DJoinPrinter (set_results (results s ++ [None]) s))
  | DJoinPrinter =>
      match var_printer s with
      | PDone => Some (set_drv DSort s)
      | _ => None
      end
  | DSort =>
      match temp_file s with
      | Some f =>
          if sort_raises env then Some (set_drv DCrashed s)
          else Some (set_drv DEmit (set_temp (Some (sort_variants f)) s))
      | None => Some (set_drv DCrashed s)
      end
  | DEmit =>
      match temp_file s with
      | Some f =>
          if emit_raises env then Some (set_drv DCrashed s)
          else Some (set_drv DRemove (set_printed (emit f) s))
      | None => Some (set_drv DCrashed s)
      end
  | DRemove =>
      match temp_file s with
      | Some _ => Some (set_drv DEnd (set_temp None s))
      | None => Some (set_drv DCrashed s)
      end
  | DEnd | DCrashed => None
  end.

(** Modelled from the spec: [VariantAnnotator] (genmod/annotate_variants) is
    not under src/. Section 4.1: a worker pulls a job from the work queue;
    on a record it applies the annotation function and pushes the result
    onto the result channel, on the sentinel it stops pulling and
    terminates. A job counts as consumed (the [task_done] that
    [variant_queue.join()] of line 303 waits for) once its result has been
    pushed. *)
Definition exec_worker (i : nat) (s : state) : option state :=
  match nth_error (annotators s) i with
  | Some WIdle =>
      match variant_queue s with
      | Some record :: q =>
          Some (set_annotators (update i (WBusy record) (annotators s))
                  (set_queue q s))
      | None :: q =>
          Some (set_annotators (update i WStop (annotators s))
                  (set_queue q s))
      | [] => None
      end
  | Some (WBusy record) =>
      Some (set_annotators (update i WAck (annotators s))
              (set_results (results s ++ [Some (annotation env record)]) s))
  | Some WAck =>
      Some (set_annotators (update i WIdle (annotators s)) (task_done s))
  | Some WStop =>
      Some (set_annotators (update i WDone (annotators s)) (task_done s))
  | Some WDone => None
  | None => None
  end.

(** Modelled from the spec: [VariantPrinter] (genmod/utils) is not under
    src/. Section 4.2: the collector is the single consumer of the result
    channel; for each result it appends the sort key, a TAB and the record
    as one line to the spill file (the text of the priority-taking
    [print_variant_for_sorting]); on the end-of-results signal of the driver
    it closes the file and returns. *)
Definition exec_printer (s : state) : option state :=
  match var_printer s with
  | PRun =>
      match results s, temp_file s with
      | Some record :: rs, Some f =>
          Some (set_temp
                  (Some (f ++ [vcf_tools.sorting_text record
                                  (priority env record)]))
                  (set_results rs s))
      | None :: rs, _ => Some (set_printer PDone (set_results rs s))
      | _, _ => None
      end
  | _ => None
  end.

(** Who moves next. *)
Inductive action :=
| Driver
| Worker (i : nat)
| Printer.

Definition exec (a : action) (s : state) : option state :=
  match a with
  | Driver => exec_driver s
  | Worker i => exec_worker i s
  | Printer => exec_printer s
  end.

(** A schedule is run from left to right. *)
Fixpoint run (schedule : list action) (s : state) : option state :=
  match schedule with
  | [] => Some s
  | a :: rest =>
      match exec a s with
      | Some s' => run rest s'
      | None => None
      end
  end.

Definition init : state :=
  {| drv := DSetup; variant_queue := []; unfinished_tasks := 0;
     results := []; annotators := []; var_printer := PIdle;
     temp_file := None; created := 0; pushed := []; printed := [] |}.

(** The data records of the input: the stripped lines that are no header
    lines (lines 292-296). *)
Definition data_records (lines : list string) : list string :=
  filter (fun line => negb (startswith hash line)) (map rstrip lines).

End Pipeline.

End annotate_variant.

(* ------------------------------------------------------------------ *)
(** ** Vocabulary of the statements *)

(** [contains c s]: the character [c] occurs in [s]. *)
Fixpoint contains (c : ascii) (s : string) : bool :=
  match s with
  | EmptyString => false
  | String d s' => Ascii.eqb d c || contains c s'
  end.

(** A sort key as the spill file needs it: its text is one column and does
    not make the line look like a header line. *)
Definition key_ok (k : string) : Prop :=
  startswith hash k = false /\ contains tab k = false.

(** The instance of the float builtins used for the concrete examples: it
    knows the integer literals ([float("12")] is [12.0], printed as
    ["12.0"]) and takes every other text for no number. Python accepts more
    (fractions, exponents, [inf], [nan], blanks around the number) and
    keeps the sign of zero; the examples below use non-zero integer
    literals and plain words only. *)
Definition int_literals : FloatOps :=
  {| float := Z;
     float_of_string :=
       fun s => option_map Z.of_int (NilZero.int_of_string s);
     string_of_float :=
       fun z => (NilZero.string_of_int (Z.to_int z) ++ ".0")%string |}.

(** A variant line from its columns. *)
Definition vcf_line (columns : list string) : string := join TAB columns.

(** What [print_variant] emits for a text: one line on the output file,
    or one printed line unless [silent]. *)
Definition emitted (outfile : option handle) (silent : bool) (text : string)
    : list event :=
  match outfile with
  | Some g => [Write g (text ++ NL)]
  | None => if silent then [] else [Print text]
  end.

Import annotate_variant.

(** *** Bookkeeping over the states of the pipeline *)

(** The records among the jobs of a queue, and its stop signs. *)
Fixpoint queued (q : list (option string)) : list string :=
  match q with
  | [] => []
  | Some record :: q' => record :: queued q'
  | None :: q' => queued q'
  end.

Fixpoint stop_signs (q : list (option string)) : nat :=
  match q with
  | [] => 0
  | Some _ :: q' => stop_signs q'
  | None :: q' => S (stop_signs q')
  end.

(** The records the workers hold. *)
Fixpoint held (ws : list worker) : list string :=
  match ws with
  | [] => []
  | WBusy record :: ws' => record :: held ws'
  | _ :: ws' => held ws'
  end.

(** A worker that took a job and has not yet called [task_done]. *)
Definition in_hand (w : worker) : nat :=
  match w with
  | WBusy _ | WAck | WStop => 1
  | WIdle | WDone => 0
  end.

(** A worker that took a stop sign. *)
Definition stopped (w : worker) : nat :=
  match w with
  | WStop | WDone => 1
  | _ => 0
  end.

Fixpoint total (f : worker -> nat) (ws : list worker) : nat :=
  match ws with
  | [] => 0
  | w :: ws' => f w + total f ws'
  end.

(** Occurrences of a line in a list of lines. *)
Definition one (x y : string) : nat := if string_dec y x then 1 else 0.

Fixpoint occ (x : string) (l : list string) : nat :=
  match l with
  | [] => 0
  | y :: l' => one x y + occ x l'
  end.

Section Bookkeeping.
Context `{FloatOps} (env : collaborators) (args : arguments).

Definition pool : nat := Z.to_nat (workers args).

Definition records : list string := data_records (variant_file args).

(** The spill line of an annotated record, and of a record. *)
Definition line_of (annotated : string) : string :=
  vcf_tools.sorting_text annotated (priority env annotated).

Definition spill_line (record : string) : string :=
  line_of (annotation env record).

(** The records the driver has still to push, and its stop signs. *)
Definition pending (d : driver) : list string :=
  match d with
  | DSetup => records
  | DFeed rest => data_records rest
  | _ => []
  end.

Definition to_push (d : driver) : nat :=
  match d with
  | DSetup | DFeed _ => pool
  | DStop k => k
  | _ => 0
  end.

Definition spill (s : state) : list string :=
  match temp_file s with
  | Some f => f
  | None => []
  end.

(** The driver has passed [variant_queue.join()]. *)
Definition joined (d : driver) : bool :=
  match d with
  | DSetup | DFeed _ | DStop _ | DJoinQueue => false
  | _ => true
  end.

(** The driver has left the loop that pushes the stop signs. *)
Definition stops_pushed (d : driver) : bool :=
  match d with
  | DSetup | DFeed _ | DStop _ => false
  | _ => true
  end.

(** The invariant of the pipeline. *)
Record inv (s : state) : Prop := {
  inv_count :
    unfinished_tasks s
    = length (variant_queue s) + total in_hand (annotators s);
  inv_stops :
    stop_signs (variant_queue s) + total stopped (annotators s)
    + to_push (drv s) = pool;
  inv_pool :
    match drv s with
    | DSetup => annotators s = [] /\ var_printer s = PIdle /\ results s = []
    | _ => length (annotators s) = pool
    end;
  inv_fifo :
    variant_queue s
    = map Some (queued (variant_queue s))
      ++ repeat None (stop_signs (variant_queue s))
    /\ (0 < total stopped (annotators s) -> queued (variant_queue s) = []);
  inv_joined :
    joined (drv s) = true -> unfinished_tasks s = 0;
  inv_results :
    match drv s with
    | DSetup => True
    | DFeed _ | DStop _ | DJoinQueue | DSignal =>
        var_printer s = PRun /\ stop_signs (results s) = 0
    | DJoinPrinter =>
        (var_printer s = PRun
         /\ results s = map Some (queued (results s)) ++ [None])
        \/ (var_printer s = PDone /\ results s = [])
    | _ => var_printer s = PDone /\ results s = []
    end;
  inv_temp :
    match drv s with
    | DSetup => temp_file s = None /\ created s = 0
    | DEnd => temp_file s = None /\ created s = 1
    | _ => temp_file s <> None /\ created s = 1
    end;
  inv_records :
    match drv s with
    | DRemove | DEnd =>
        exists f, Permutation f (map spill_line records)
                  /\ printed s = emit args f
    | DCrashed => True
    | _ =>
        forall x,
          occ x (spill s) + occ x (map line_of (queued (results s)))
          + occ x (map spill_line (held (annotators s)))
          + occ x (map spill_line (queued (variant_queue s)))
          + occ x (map spill_line (pending (drv s)))
          = occ x (map spill_line records)
    end;
  inv_pushed :
    pushed s ++ map Some (pending (drv s)) ++ repeat None (to_push (drv s))
    = map Some records ++ repeat None pool;
  inv_faults :
    sort_raises env = false -> emit_raises env = false -> drv s <> DCrashed
}.

(** The driver has passed [var_printer.join()]. *)
Definition printer_joined (d : driver) : bool :=
  match d with
  | DSort | DEmit | DRemove | DEnd | DCrashed => true
  | _ => false
  end.

(** What a complete run is to emit: every data record of the input,
    annotated and stripped, once. *)
Definition expected_output : list event :=
  flat_map
    (fun record =>
       emitted (outfile args) (silent args) (rstrip (annotation env record)))
    records.

(** A measure that every step decreases. *)
Definition driver_weight (d : driver) : nat :=
  match d with
  | DSetup => 10 + 5 * pool + 5 * length (variant_file args)
  | DFeed rest => 9 + 5 * pool + 5 * length rest
  | DStop k => 8 + 5 * k
  | DJoinQueue => 7
  | DSignal => 6
  | DJoinPrinter => 4
  | DSort => 3
  | DEmit => 2
  | DRemove => 1
  | DEnd | DCrashed => 0
  end.

Definition worker_weight (w : worker) : nat :=
  match w with
  | WBusy _ => 3
  | WAck | WStop => 1
  | WIdle | WDone => 0
  end.

Definition weight (s : state) : nat :=
  driver_weight (drv s) + 4 * length (variant_queue s)
  + total worker_weight (annotators s) + length (results s).

End Bookkeeping.

(** *** A small run, used for the concrete examples

    The annotation appends one key to the info column, every record gets
    the sort key 1 and all keys compare as equal. *)
Definition example_env (sort_fails emit_fails : bool)
    : @collaborators int_literals :=
  {| annotation := fun record => (record ++ ";CADD=3")%string;
     priority := fun _ => @PyInt int_literals 1;
     key_leb := fun _ _ => true;
     sort_raises := sort_fails;
     emit_raises := emit_fails |}.

Definition example_args : arguments :=
  {| variant_file :=
       ["##fileformat=VCFv4.1";
        vcf_line ["#CHROM"; "POS"; "ID"; "REF"; "ALT"; "QUAL"; "FILTER";
                  "INFO"];
        vcf_line ["1"; "100"; "."; "A"; "T"; "."; "PASS"; "DP=10"];
        vcf_line ["2"; "200"; "."; "G"; "C"; "."; "PASS"; "DP=20"]];
     workers := 2;
     outfile := Some "out.vcf";
     silent := false |}.

(** Both workers take a record each, the printer writes the two results,
    the workers take their stop signs, and the driver goes on to the end. *)
Definition example_schedule : list action :=
  [Driver; Driver; Driver; Driver; Driver; Driver;
   Worker 1; Worker 0; Worker 0; Worker 1; Printer; Worker 0; Worker 1;
   Printer;
   Driver; Driver; Driver; Worker 0; Worker 1; Worker 1; Worker 0;
   Driver; Driver; Printer; Driver; Driver; Driver; Driver].

(** The same up to the sort. *)
Definition example_schedule_to_sort : list action :=
  firstn 25 example_schedule.

(* ------------------------------------------------------------------ *)
(** ** The set-up of the driver (lines 121-230) *)

Module annotate_setup.

(** Lines 127-136: the calls the header loop makes on the header parser.
    The loop stops at the first line that is no header line. *)
Inductive header_call :=
| ParseMetaData (line : string)
| ParseHeaderLine (line : string).

Fixpoint read_header (variant_file : list string) : list header_call :=
  match variant_file with
  | [] => []
  | line :: rest =>
      let line := rstrip line in
      if startswith hash line then
        (if String.prefix "##" line then ParseMetaData line
         else ParseHeaderLine line) :: read_header rest
      else []
  end.

(** The options of the command that the set-up reads. *)
Record options := {
  annotate_regions : bool;
  cadd : cadd_options;
  thousand_g : option string;
  exac : option string;
  cadd_raw : bool
}.

(** The values stored in [annotator_arguments]: a flag, a path, and the
    objects the header parser and [load_annotations] hand back. *)
Inductive argument :=
| ArgBool (b : bool)
| ArgPath (path : string)
| ArgHeader
| ArgGeneTrees
| ArgExonTrees.

(** A Python dict with string keys, in insertion order. *)
Definition dict := list (string * argument).

(** [d[k] = v]. *)
Fixpoint dict_set (k : string) (v : argument) (d : dict) : dict :=
  match d with
  | [] => [(k, v)]
  | (k', v') :: d' =>
      if String.eqb k k' then (k, v) :: d' else (k', v') :: dict_set k v d'
  end.

(** [d.get(k)]. *)
Fixpoint dict_get (k : string) (d : dict) : option argument :=
  match d with
  | [] => None
  | (k', v) :: d' => if String.eqb k k' then Some v else dict_get k d'
  end.

(** One call of [add_metadata(head, 'info', id, annotation_number=...,
    entry_type=..., description=...)]. *)
Record metadata := {
  md_category : string;
  md_id : string;
  md_number : string;
  md_type : string;
  md_description : string
}.

Definition info (id number type description : string) : metadata :=
  {| md_category := "info"; md_id := id; md_number := number;
     md_type := type; md_description := description |}.

(** [if path: annotator_arguments[key] = path]. *)
Definition set_path (key : string) (path : option string) (d : dict) : dict :=
  if truthy path
  then match path with
       | Some p => dict_set key (ArgPath p) d
       | None => d
       end
  else d.

(** Lines 121-230: the arguments for the workers and the metadata calls,
    in program order. *)
Definition setup (o : options) : dict * list metadata :=
  let annotator_arguments := dict_set "cadd_raw" (ArgBool (cadd_raw o)) [] in
  let annotator_arguments :=
    dict_set "header_line" ArgHeader annotator_arguments in
  let added := [] in
  let '(annotator_arguments, added) :=
    if annotate_regions o then
      (dict_set "exon_trees" ArgExonTrees
         (dict_set "gene_trees" ArgGeneTrees annotator_arguments),
       added ++ [info "Annotation" "." "String"
                   "Annotates what feature(s) this variant belongs to.";
                 info "Exonic" "0" "Flag"
                   "Indicates if the variant is exonic."])
    else (annotator_arguments, added) in
  let '(annotator_arguments, added) :=
    if truthy (exac o) then
      (set_path "exac" (exac o) annotator_arguments,
       added ++ [info "ExACAF" "A" "Float"
                   "Frequency in the ExAC database."])
    else (annotator_arguments, added) in
  let '(annotator_arguments, added) :=
    if truthy (thousand_g o) then
      (set_path "thousand_g" (thousand_g o) annotator_arguments,
       added ++ [info "1000GAF" "A" "Float"
                   "Frequency in the 1000G database."])
    else (annotator_arguments, added) in
  let annotator_arguments :=
    set_path "cadd_file" (cadd_file (cadd o)) annotator_arguments in
  let annotator_arguments :=
    set_path "cadd_1000g" (cadd_1000g (cadd o)) annotator_arguments in
  let annotator_arguments :=
    set_path "cadd_exac" (cadd_exac (cadd o)) annotator_arguments in
  let annotator_arguments :=
    set_path "cadd_ESP" (cadd_esp (cadd o)) annotator_arguments in
  let annotator_arguments :=
    set_path "cadd_InDels" (cadd_indels (cadd o)) annotator_arguments in
  if any_cadd_file (cadd o) then
    let added :=
      added ++ [info "CADD" "A" "Float"
                  "The CADD relative score for this alternative."] in
    if cadd_raw o then
      (dict_set "cadd_raw" (ArgBool true) annotator_arguments,
       added ++ [info "CADD_raw" "A" "Float"
                   "The CADD raw score(s) for this alternative(s)."])
    else (annotator_arguments, added)
  else (annotator_arguments, added).

Definition annotator_arguments (o : options) : dict := fst (setup o).

(** The ids of the metadata the set-up adds to the header. *)
Definition added_ids (o : options) : list string :=
  map md_id (snd (setup o)).

(** The workers are given something under the key [k]. *)
Definition passed (o : options) (k : string) : Prop :=
  dict_get k (annotator_arguments o) <> None.

End annotate_setup.

(** The text after the first TAB of a line; empty when it has none. *)
Fixpoint after_first_tab (s : string) : string :=
  match s with
  | EmptyString => EmptyString
  | String c s' => if Ascii.eqb c tab then s' else after_first_tab s'
  end.

(** A line the driver takes for a header line. *)
Definition is_header (line : string) : bool := startswith hash (rstrip line).

(** Without workers the work queue is the history of the driver's [put]
    calls, and nothing reaches the result queue before the join. *)
Definition unserved (s : state) : Prop :=
  annotators s = [] /\ results s = [] /\ variant_queue s = pushed s
  /\ joined (drv s) = false.

(** An info annotation of the shape [k=v] whose key is not RankScore. *)
Definition other_annotation (a : string) : Prop :=
  exists k v, split "="%char a = [k; v] /\ k <> "RankScore".

(** The sort keys the extracting helper can produce: the default -100 and
    the floats it reads. *)
Definition numeric_key `{FloatOps} (r : value) : Prop :=
  r = PyInt (-100) \/ exists x, r = PyFloat x.

(* ------------------------------------------------------------------ *)
(** ** Facts about the string primitives *)

Lemma split_not_nil (sep : ascii) (s : string) : split sep s <> [].
Proof.
  destruct s as [|c s]; simpl; [discriminate|].
  destruct (Ascii.eqb c sep); [discriminate|].
  destruct (split sep s); discriminate.
Qed.

Lemma join_cons (sep f : string) (fs : list string) :
  fs <> [] -> join sep (f :: fs) = (f ++ sep ++ join sep fs)%string.
Proof. destruct fs; [congruence | reflexivity]. Qed.

Lemma join_split (sep : ascii) (s : string) :
  join (String sep EmptyString) (split sep s) = s.
Proof.
  induction s as [|c s IH]; simpl; [reflexivity|].
  destruct (Ascii.eqb_spec c sep) as [->|Hne].
  - rewrite join_cons by apply split_not_nil. simpl. now rewrite IH.
  - pose proof (split_not_nil sep s) as Hnil.
    destruct (split sep s) as [|f fs]; [congruence|].
    destruct fs as [|f' fs]; [simpl in *; now rewrite IH|].
    rewrite join_cons in IH by discriminate.
    rewrite join_cons by discriminate.
    rewrite <- IH. reflexivity.
Qed.

Lemma split_without (sep : ascii) (s : string) :
  contains sep s = false -> split sep s = [s].
Proof.
  induction s as [|c s IH]; simpl; [reflexivity|].
  intros Hc. apply orb_false_iff in Hc as [Hc Hs].
  rewrite Hc, (IH Hs). reflexivity.
Qed.

Lemma split_app_sep (sep : ascii) (k rest : string) :
  contains sep k = false ->
  split sep (k ++ String sep rest) = k :: split sep rest.
Proof.
  induction k as [|c k IH]; simpl.
  - intros _. now rewrite Ascii.eqb_refl.
  - intros Hc. apply orb_false_iff in Hc as [Hc Hk].
    rewrite Hc, (IH Hk). reflexivity.
Qed.

Lemma rstrip_app (a b : string) :
  rstrip (a ++ b) =
  match rstrip b with
  | EmptyString => rstrip a
  | r => (a ++ r)%string
  end.
Proof.
  induction a as [|c a IH]; simpl.
  - destruct (rstrip b); reflexivity.
  - rewrite IH. destruct (rstrip b) as [|d r]; [reflexivity|].
    destruct a; reflexivity.
Qed.

Lemma rstrip_newline (s : string) : rstrip (s ++ NL) = rstrip s.
Proof. rewrite rstrip_app. reflexivity. Qed.

Lemma rstrip_contains (c : ascii) (s : string) :
  contains c s = false -> contains c (rstrip s) = false.
Proof.
  induction s as [|d s IH]; simpl; [reflexivity|].
  intros Hc. apply orb_false_iff in Hc as [Hd Hs].
  specialize (IH Hs).
  destruct (rstrip s) as [|e r].
  - destruct (isspace d); simpl; [reflexivity | now rewrite Hd].
  - simpl in *. now rewrite Hd, IH.
Qed.

Lemma startswith_app (c : ascii) (k rest : string) :
  startswith c (k ++ String tab rest) =
  match k with EmptyString => Ascii.eqb tab c | _ => startswith c k end.
Proof. destruct k; reflexivity. Qed.

Lemma string_app_assoc (a b c : string) :
  ((a ++ b) ++ c = a ++ (b ++ c))%string.
Proof. induction a; simpl; congruence. Qed.

(** The fields [print_variant] prints in mode ['modified'] for a line that
    starts with a key column: the key is gone, the rest is the stripped
    record. *)
Lemma rstrip_key_column (k L : string) :
  rstrip (k ++ TAB ++ L) =
  match rstrip L with
  | EmptyString => rstrip k
  | r => (k ++ TAB ++ r)%string
  end.
Proof.
  rewrite rstrip_app. change (TAB ++ L)%string with (String tab L).
  simpl rstrip. destruct (rstrip L); reflexivity.
Qed.

Lemma modified_fields (k L : string) :
  contains tab k = false ->
  vcf_tools.printed_fields (k ++ TAB ++ L) "modified" =
  match rstrip L with
  | EmptyString => []
  | r => split tab r
  end.
Proof.
  intros Hk. unfold vcf_tools.printed_fields.
  change (String.eqb "modified" "modified") with true. cbv iota.
  rewrite rstrip_key_column. destruct (rstrip L) as [|d r].
  - rewrite split_without by now apply rstrip_contains. reflexivity.
  - change (TAB ++ String d r)%string with (String tab (String d r)).
    rewrite split_app_sep by assumption. reflexivity.
Qed.

Lemma modified_text (k L : string) :
  contains tab k = false ->
  join TAB (vcf_tools.printed_fields (k ++ TAB ++ L) "modified") = rstrip L.
Proof.
  intros Hk. rewrite modified_fields by assumption.
  destruct (rstrip L) as [|d r]; [reflexivity|]. apply join_split.
Qed.

Lemma startswith_key_column (k L : string) :
  startswith hash (k ++ TAB ++ L) = startswith hash k.
Proof. destruct k; reflexivity. Qed.

(** [print_variant] in mode ['modified'] on a spill line. *)
Lemma print_variant_modified (k L : string) (outfile : option handle)
    (silent : bool) :
  key_ok k ->
  vcf_tools.print_variant (k ++ TAB ++ L) outfile "modified" silent =
  match outfile with
  | Some g => [Write g (rstrip L ++ NL)]
  | None => if silent then [] else [Print (rstrip L)]
  end.
Proof.
  intros [Hh Ht]. unfold vcf_tools.print_variant.
  rewrite startswith_key_column, Hh. simpl negb. cbv iota.
  rewrite modified_text by assumption.
  destruct outfile; [reflexivity|]. destruct silent; reflexivity.
Qed.

(* ------------------------------------------------------------------ *)
(** ** The emitters: sink and silent mode *)

Lemma print_variants_per_line (f : list string) (outfile : option string)
    (mode : string) (silent : bool) :
  outfile <> Some EmptyString ->
  utils.print_variants f outfile mode silent =
  flat_map (fun line => vcf_tools.print_variant line outfile mode silent) f.
Proof.
  intros Hne. unfold utils.print_variants.
  induction f as [|line f IH]; [reflexivity|].
  cbn [flat_map]. rewrite IH. f_equal.
  unfold vcf_tools.print_variant, vcf_tools.printed_fields.
  destruct (negb (startswith hash line)); [|reflexivity].
  destruct outfile as [[|c g]|]; [congruence | reflexivity | reflexivity].
Qed.

(** C6: a variant line given to [print_variant] with an output file is
    written to that file whatever [silent] is, and without an output file
    it is printed exactly when [silent] is false; [print_variants] does the
    same for every line of its input. *)
Theorem C6_sink_overrides_silent :
  forall (variant_line mode : string) (g : handle) (silent : bool)
         (f : list string),
    startswith hash variant_line = false ->
    let text := join TAB (vcf_tools.printed_fields variant_line mode) in
    vcf_tools.print_variant variant_line (Some g) mode silent
      = [Write g (text ++ NL)]
    /\ vcf_tools.print_variant variant_line None mode silent
      = (if silent then [] else [Print text])
    /\ (g <> EmptyString ->
        utils.print_variants [variant_line] (Some g) mode silent
        = [Write g (text ++ NL)])
    /\ utils.print_variants [variant_line] None mode silent
      = (if silent then [] else [Print text])
    /\ (g <> EmptyString ->
        utils.print_variants f (Some g) mode silent
        = flat_map
            (fun line => vcf_tools.print_variant line (Some g) mode silent) f)
    /\ utils.print_variants f None mode silent
      = flat_map
          (fun line => vcf_tools.print_variant line None mode silent) f.
Proof.
  intros variant_line mode g silent f Hdata text.
  assert (Hone : vcf_tools.print_variant variant_line (Some g) mode silent
                 = [Write g (text ++ NL)]).
  { unfold vcf_tools.print_variant. now rewrite Hdata. }
  assert (Hnone : vcf_tools.print_variant variant_line None mode silent
                  = (if silent then [] else [Print text])).
  { unfold vcf_tools.print_variant. rewrite Hdata. now destruct silent. }
  split; [exact Hone|]. split; [exact Hnone|]. split; [|split; [|split]].
  - intros Hg. rewrite print_variants_per_line by congruence.
    cbn [flat_map]. now rewrite app_nil_r.
  - rewrite print_variants_per_line by congruence.
    cbn [flat_map]. now rewrite app_nil_r.
  - intros Hg. apply print_variants_per_line. congruence.
  - apply print_variants_per_line. congruence.
Qed.

Lemma C6_witness :
  vcf_tools.print_variant (vcf_line ["1"; "100"; "rs1"]) (Some "out.vcf")
    "vcf" true
  = [Write "out.vcf" (vcf_line ["1"; "100"; "rs1"] ++ NL)]
  /\ utils.print_variants [vcf_line ["1"; "100"; "rs1"]] (Some "out.vcf")
       "vcf" true
     = [Write "out.vcf" (vcf_line ["1"; "100"; "rs1"] ++ NL)]
  /\ utils.print_variants [vcf_line ["1"; "100"; "rs1"]] None "vcf" false
     = [Print (vcf_line ["1"; "100"; "rs1"])].
Proof.
  destruct (C6_sink_overrides_silent (vcf_line ["1"; "100"; "rs1"]) "vcf"
              "out.vcf" true [] eq_refl) as (Hw & _ & Hf & _).
  destruct (C6_sink_overrides_silent (vcf_line ["1"; "100"; "rs1"]) "vcf"
              "out.vcf" false [] eq_refl) as (_ & _ & _ & Hp & _).
  split; [exact Hw|]. split; [apply Hf; discriminate | exact Hp].
Defined.

(* ------------------------------------------------------------------ *)
(** ** The number of workers *)

(** C7: the default number of workers is [min(4, cpu_count())], which is at
    most the number of CPUs; with a CADD file and [processes] at its
    default the number becomes [min(8, cpu_count())], again at most the
    number of CPUs; in every other case it is [processes]. *)
Theorem C7_worker_count :
  forall (o : cadd_options) (processes cpu_count : Z),
    (default_processes cpu_count = Z.min 4 cpu_count)%Z
    /\ (default_processes cpu_count <= cpu_count)%Z
    /\ (any_cadd_file o = true <->
        truthy (cadd_file o) = true \/ truthy (cadd_1000g o) = true \/
        truthy (cadd_exac o) = true \/ truthy (cadd_esp o) = true \/
        truthy (cadd_indels o) = true)
    /\ (any_cadd_file o = true -> processes = default_processes cpu_count ->
        num_annotators o processes cpu_count = Z.min 8 cpu_count
        /\ (num_annotators o processes cpu_count <= cpu_count)%Z)
    /\ (~ (any_cadd_file o = true /\ processes = default_processes cpu_count)
        -> num_annotators o processes cpu_count = processes).
Proof.
  intros o processes cpu_count. unfold default_processes.
  split; [reflexivity|]. split; [lia|]. split.
  - unfold any_cadd_file.
    destruct (truthy (cadd_file o)), (truthy (cadd_1000g o)),
      (truthy (cadd_exac o)), (truthy (cadd_esp o)),
      (truthy (cadd_indels o)); simpl; intuition congruence.
  - unfold num_annotators. split.
    + intros -> ->. rewrite Z.eqb_refl. split; [reflexivity | lia].
    + intros Hnot. destruct (any_cadd_file o); [|reflexivity].
      destruct (Z.eqb_spec processes (Z.min 4 cpu_count)); [|reflexivity].
      exfalso. apply Hnot. now split.
Qed.

Lemma C7_witness :
  num_annotators
    {| cadd_file := Some "cadd.tsv.gz"; cadd_1000g := None;
       cadd_exac := None; cadd_esp := None; cadd_indels := None |} 4 16
  = 8%Z.
Proof.
  apply (C7_worker_count
           {| cadd_file := Some "cadd.tsv.gz"; cadd_1000g := None;
              cadd_exac := None; cadd_esp := None; cadd_indels := None |}
           4 16); reflexivity.
Defined.

(* ------------------------------------------------------------------ *)
(** ** The spill line and its way back *)

Lemma sorting_text_eq `{FloatOps} (L : string) (p : value) :
  vcf_tools.sorting_text L p = (format p ++ TAB ++ L)%string.
Proof. unfold vcf_tools.sorting_text. now rewrite (join_split tab). Qed.

(** C8, as stated, fails: a record that ends in an empty column loses that
    column on the way through the spill line; a priority whose text holds a
    TAB leaves a part of itself in the record; and a priority whose text
    starts with '#' makes the emitter take the line for a header line. *)
Lemma C8_counterexample :
  vcf_tools.printed_fields
    (@vcf_tools.sorting_text int_literals (vcf_line ["a"; "b"; ""]) (PyInt 5))
    "modified"
  <> split tab (vcf_line ["a"; "b"; ""])
  /\ vcf_tools.print_variant
       (@vcf_tools.sorting_text int_literals (vcf_line ["a"; "b"; ""])
          (PyInt 5))
       (Some "out.vcf") "modified" false
     = [Write "out.vcf" (vcf_line ["a"; "b"] ++ NL)]
  /\ vcf_tools.print_variant
       (@vcf_tools.sorting_text int_literals (vcf_line ["a"; "b"])
          (PyStr (vcf_line ["x"; "y"])))
       (Some "out.vcf") "modified" false
     = [Write "out.vcf" (vcf_line ["y"; "a"; "b"] ++ NL)]
  /\ vcf_tools.print_variant
       (@vcf_tools.sorting_text int_literals (vcf_line ["a"; "b"])
          (PyStr "#1"))
       (Some "out.vcf") "modified" false
     = [].
Proof.
  split; [vm_compute; discriminate|]. repeat split.
Qed.

(** C8, amended: for a priority whose text is one column that does not
    start with '#', the helper writes [p TAB L]; [print_variant] in mode
    ['modified'] then emits [L] without its trailing whitespace, the key
    column and nothing else being removed; when the stripped [L] is not
    empty the emitted fields are its fields, and a line with no trailing
    whitespace comes back unchanged. *)
Theorem C8_round_trip :
  forall `{FloatOps} (L : string) (p : value) (spill g : handle)
         (family_id : option string) (silent : bool),
    key_ok (format p) ->
    vcf_tools.print_variant_for_sorting L p spill family_id
      = [Write spill (format p ++ TAB ++ L)]
    /\ vcf_tools.print_variant (format p ++ TAB ++ L) (Some g) "modified"
         silent
       = [Write g (rstrip L ++ NL)]
    /\ vcf_tools.print_variant (format p ++ TAB ++ L) None "modified" silent
       = (if silent then [] else [Print (rstrip L)])
    /\ (rstrip L <> EmptyString ->
        vcf_tools.printed_fields (format p ++ TAB ++ L) "modified"
        = split tab (rstrip L))
    /\ (rstrip L = L ->
        vcf_tools.print_variant (format p ++ TAB ++ L) (Some g) "modified"
          silent
        = [Write g (L ++ NL)]).
Proof.
  intros F L p spill g family_id silent Hk.
  pose proof (print_variant_modified (format p) L (Some g) silent Hk) as Hs.
  pose proof (print_variant_modified (format p) L None silent Hk) as Hn.
  split; [unfold vcf_tools.print_variant_for_sorting;
          now rewrite sorting_text_eq|].
  split; [exact Hs|]. split; [exact Hn|]. split.
  - intros Hne. rewrite modified_fields by apply Hk.
    destruct (rstrip L); [congruence | reflexivity].
  - intros HL. rewrite Hs, HL. reflexivity.
Qed.

Lemma C8_witness :
  vcf_tools.print_variant
    (@format int_literals (PyInt 5) ++ TAB ++ vcf_line ["1"; "100"; "rs1"])
    (Some "out.vcf") "modified" false
  = [Write "out.vcf" (vcf_line ["1"; "100"; "rs1"] ++ NL)].
Proof.
  apply (@C8_round_trip int_literals (vcf_line ["1"; "100"; "rs1"]) (PyInt 5)
           "spill" "out.vcf" None false).
  - split; reflexivity.
  - reflexivity.
Defined.

(* ------------------------------------------------------------------ *)
(** ** The rank score helper *)

(** C9: whenever the extracting helper finds the rank score [r] for a line,
    it writes what the priority-taking helper writes for that line and the
    priority [r]. *)
Theorem C9_helpers_agree :
  forall `{FloatOps} (variant_line : string) (outfile : handle)
         (family_id unused : option string) (r : value),
    utils.rank_score_of variant_line family_id = Ok r ->
    utils.print_variant_for_sorting variant_line outfile family_id
    = Ok (vcf_tools.print_variant_for_sorting variant_line r outfile unused).
Proof.
  intros F variant_line outfile family_id unused r Hr.
  unfold utils.print_variant_for_sorting. rewrite Hr. reflexivity.
Qed.

Lemma C9_witness :
  @utils.print_variant_for_sorting int_literals
    (vcf_line ["1"; "100"; "."; "A"; "T"; "."; "PASS";
               "DP=10;RankScore=fam1:12,fam2:3"])
    "spill" (Some "fam2")
  = Ok (@vcf_tools.print_variant_for_sorting int_literals
          (vcf_line ["1"; "100"; "."; "A"; "T"; "."; "PASS";
                     "DP=10;RankScore=fam1:12,fam2:3"])
          (@PyFloat int_literals 3%Z) "spill" None).
Proof.
  apply (@C9_helpers_agree int_literals). reflexivity.
Defined.

(** The first annotation of the info field decides whether [key] is bound
    when it is read. *)
Lemma info_loop_unbound `{FloatOps} (family_id : option string)
    (annotation : string) (rest : list string) (rank_score : value) :
  length (split "="%char annotation) <> 2 ->
  utils.info_loop family_id (annotation :: rest) None None rank_score
  = Raise UnboundLocalError.
Proof.
  intros Hlen. cbn [utils.info_loop].
  destruct (Nat.eqb_spec (length (split "="%char annotation)) 2);
    [contradiction | reflexivity].
Qed.

(** C10, the defect: the helper reads [key] before it is bound when the
    first annotation of the info field is not of the shape [k=v]; the line
    then raises [UnboundLocalError] and no sort key is written, also when
    the info field has no RankScore annotation at all. *)
Theorem C10_unbound_key :
  forall `{FloatOps} (variant_line info : string) (outfile : handle)
         (family_id : option string),
    nth_error (split tab variant_line) 7 = Some info ->
    length (split "="%char (hd EmptyString (split ";"%char info))) <> 2 ->
    utils.print_variant_for_sorting variant_line outfile family_id
    = Raise UnboundLocalError.
Proof.
  intros F variant_line info outfile family_id Hinfo Hlen.
  unfold utils.print_variant_for_sorting, utils.rank_score_of, index.
  rewrite Hinfo. cbn [bind].
  pose proof (split_not_nil ";"%char info) as Hnil.
  destruct (split ";"%char info) as [|a rest]; [congruence|].
  cbn [hd] in Hlen. now rewrite info_loop_unbound.
Qed.

Lemma C10_witness :
  @utils.print_variant_for_sorting int_literals
    (vcf_line ["1"; "100"; "."; "A"; "T"; "."; "PASS"; "."]) "spill" None
  = Raise UnboundLocalError.
Proof.
  apply (@C10_unbound_key int_literals _ "."); [reflexivity|].
  vm_compute. discriminate.
Defined.

(** Where every annotation has the shape [k=v] and none has the key
    RankScore, the default key is written. *)
Lemma info_loop_no_rank_score `{FloatOps} (family_id : option string)
    (annotations : list string) (key value : option string)
    (rank_score : Py.value) :
  Forall (fun a => exists k v, split "="%char a = [k; v]
                               /\ k <> "RankScore") annotations ->
  (forall k, key = Some k -> k <> "RankScore") ->
  utils.info_loop family_id annotations key value rank_score = Ok rank_score.
Proof.
  intros Hall. revert key value.
  induction Hall as [|a rest (k & v & Ha & Hk) _ IH]; intros key value Hkey.
  - reflexivity.
  - cbn [utils.info_loop]. rewrite Ha. cbn.
    destruct (String.eqb_spec k "RankScore") as [|_]; [contradiction|].
    apply IH. intros k' [= <-]. exact Hk.
Qed.

Lemma default_key_written `{FloatOps} (variant_line info : string)
    (outfile : handle) (family_id : option string) :
  nth_error (split tab variant_line) 7 = Some info ->
  Forall (fun a => exists k v, split "="%char a = [k; v]
                               /\ k <> "RankScore") (split ";"%char info) ->
  utils.print_variant_for_sorting variant_line outfile family_id
  = Ok [Write outfile ("-100" ++ TAB ++ variant_line)].
Proof.
  intros Hinfo Hall.
  unfold utils.print_variant_for_sorting, utils.rank_score_of, index.
  rewrite Hinfo. cbn [bind].
  rewrite info_loop_no_rank_score by (assumption || discriminate).
  cbn [bind]. now rewrite (join_split tab).
Qed.

(** With a family id that no entry of the RankScore value carries, the
    score is left as it was. *)
Lemma family_loop_no_match `{FloatOps} (family_id : string)
    (entries : list string) (rank_score : value) :
  family_id <> EmptyString ->
  Forall (fun e => hd EmptyString (split ":"%char e) <> family_id) entries ->
  utils.family_loop (Some family_id) entries rank_score = Ok rank_score.
Proof.
  intros Hid Hall.
  induction Hall as [|e entries He _ IH]; [reflexivity|].
  cbn [utils.family_loop].
  destruct family_id as [|c family_id]; [congruence|]. cbn [truthy].
  pose proof (split_not_nil ":"%char e) as Hnil.
  destruct (split ":"%char e) as [|fam tail]; [congruence|].
  unfold index. cbn [nth_error bind hd] in *.
  destruct (String.eqb_spec (String c family_id) fam) as [Heq|_];
    [now symmetry in Heq | exact IH].
Qed.

(** Without a family id the score of the first entry is taken. *)
Lemma family_loop_first `{FloatOps} (family_id : option string)
    (entry fam score : string) (tail entries : list string)
    (rank_score : value) (x : float) :
  truthy family_id = false ->
  split ":"%char entry = fam :: score :: tail ->
  float_of_string score = Some x ->
  utils.family_loop family_id (entry :: entries) rank_score = Ok (PyFloat x).
Proof.
  intros Hid He Hx. cbn [utils.family_loop]. rewrite Hid, He.
  unfold index, to_float. cbn [nth_error bind]. now rewrite Hx.
Qed.

(* ------------------------------------------------------------------ *)
(** ** Malformed sort keys *)

(** C2, as stated, fails: a line with two columns makes the helper raise
    [IndexError]; nothing is written and nothing is skipped or logged. *)
Lemma C2_counterexample :
  @utils.print_variant_for_sorting int_literals (vcf_line ["1"; "100"])
    "spill" None
  = Raise IndexError
  /\ ~ (exists events,
          @utils.print_variant_for_sorting int_literals
            (vcf_line ["1"; "100"]) "spill" None
          = Ok events).
Proof.
  split; [reflexivity|]. intros [events Hev]. discriminate Hev.
Qed.

(** C2, amended: the helper has no handler. A line with fewer than eight
    columns raises [IndexError]; a line whose first info annotation is
    [RankScore=...] and whose first family entry carries a score that is no
    number raises [ValueError] when no family id is given or the family id
    is the one of that entry. In both cases nothing is written. *)
Theorem C2_malformed_raises :
  forall `{FloatOps} (variant_line : string) (outfile : handle)
         (family_id : option string),
    (length (split tab variant_line) < 8 ->
     utils.print_variant_for_sorting variant_line outfile family_id
     = Raise IndexError)
    /\ (forall info a rest v e more fam score tail,
          nth_error (split tab variant_line) 7 = Some info ->
          split ";"%char info = a :: rest ->
          split "="%char a = ["RankScore"; v] ->
          split ","%char v = e :: more ->
          split ":"%char e = fam :: score :: tail ->
          float_of_string score = None ->
          truthy family_id = false \/ family_id = Some fam ->
          utils.print_variant_for_sorting variant_line outfile family_id
          = Raise ValueError).
Proof.
  intros F variant_line outfile family_id. split.
  - intros Hlen.
    unfold utils.print_variant_for_sorting, utils.rank_score_of, index.
    destruct (nth_error (split tab variant_line) 7) eqn:Hn; [|reflexivity].
    assert (nth_error (split tab variant_line) 7 <> None) as Hsome
      by congruence.
    apply nth_error_Some in Hsome. lia.
  - intros info a rest v e more fam score tail Hinfo Ha Hkv Hv He Hscore Hfam.
    unfold utils.print_variant_for_sorting, utils.rank_score_of, index.
    rewrite Hinfo. cbn [bind]. rewrite Ha.
    cbn [utils.info_loop]. rewrite Hkv.
    cbn [length Nat.eqb nth_error].
    change (String.eqb "RankScore" "RankScore") with true.
    cbv iota. rewrite Hv. cbn [utils.family_loop]. rewrite He.
    unfold index. cbn [nth_error bind]. unfold to_float. rewrite Hscore.
    destruct Hfam as [Hf | ->].
    + rewrite Hf. reflexivity.
    + destruct fam as [|c fam]; [reflexivity|].
      cbn [truthy]. rewrite String.eqb_refl. reflexivity.
Qed.

Lemma C2_witness :
  @utils.print_variant_for_sorting int_literals
    (vcf_line ["1"; "100"; "."; "A"; "T"; "."; "PASS"]) "spill" None
  = Raise IndexError
  /\ @utils.print_variant_for_sorting int_literals
       (vcf_line ["1"; "100"; "."; "A"; "T"; "."; "PASS";
                  "RankScore=fam1:high;DP=10"]) "spill" None
     = Raise ValueError.
Proof.
  split.
  - apply (@C2_malformed_raises int_literals). vm_compute. lia.
  - eapply (@C2_malformed_raises int_literals); try reflexivity.
    left. reflexivity.
Defined.

(* ------------------------------------------------------------------ *)
(** ** The pipeline: bookkeeping lemmas *)

Lemma update_split (ws : list worker) (i : nat) (w : worker) :
  nth_error ws i = Some w ->
  exists l1 l2, ws = l1 ++ w :: l2
                /\ forall w', update i w' ws = l1 ++ w' :: l2.
Proof.
  revert i. induction ws as [|w0 ws IH]; intros [|i] Hi; simpl in Hi;
    try discriminate.
  - injection Hi as ->. now exists [], ws.
  - destruct (IH i Hi) as (l1 & l2 & -> & Hup).
    exists (w0 :: l1), l2. split; [reflexivity|].
    intros w'. simpl. now rewrite Hup.
Qed.

Lemma total_app (f : worker -> nat) (l1 l2 : list worker) :
  total f (l1 ++ l2) = total f l1 + total f l2.
Proof. induction l1; simpl; lia. Qed.

Lemma total_repeat_idle (f : worker -> nat) (n : nat) :
  f WIdle = 0 -> total f (repeat WIdle n) = 0.
Proof. intros Hf. induction n; simpl; lia. Qed.

Lemma held_app (l1 l2 : list worker) : held (l1 ++ l2) = held l1 ++ held l2.
Proof.
  induction l1 as [|w l1 IH]; simpl; [reflexivity|].
  destruct w; simpl; congruence.
Qed.

Lemma held_repeat_idle (n : nat) : held (repeat WIdle n) = [].
Proof. induction n; simpl; auto. Qed.

Lemma queued_app (q1 q2 : list (option string)) :
  queued (q1 ++ q2) = queued q1 ++ queued q2.
Proof.
  induction q1 as [|[r|] q1 IH]; simpl; congruence.
Qed.

Lemma stop_signs_app (q1 q2 : list (option string)) :
  stop_signs (q1 ++ q2) = stop_signs q1 + stop_signs q2.
Proof.
  induction q1 as [|[r|] q1 IH]; simpl; lia.
Qed.

Lemma queued_records (l : list string) : queued (map Some l) = l.
Proof. induction l; simpl; congruence. Qed.

Lemma stop_signs_records (l : list string) : stop_signs (map Some l) = 0.
Proof. induction l; simpl; auto. Qed.

Lemma queued_stops (k : nat) : queued (repeat None k) = [].
Proof. induction k; simpl; auto. Qed.

Lemma stop_signs_stops (k : nat) : stop_signs (repeat None k) = k.
Proof. induction k; simpl; auto. Qed.

Lemma repeat_snoc {A} (x : A) (k : nat) : repeat x k ++ [x] = x :: repeat x k.
Proof. induction k; simpl; congruence. Qed.

Lemma occ_app (x : string) (l1 l2 : list string) :
  occ x (l1 ++ l2) = occ x l1 + occ x l2.
Proof. induction l1; simpl; lia. Qed.

Lemma occ_count (x : string) (l : list string) :
  occ x l = count_occ string_dec l x.
Proof.
  induction l as [|y l IH]; simpl; [reflexivity|]. unfold one.
  destruct (string_dec y x); lia.
Qed.

Lemma occ_permutation (l1 l2 : list string) :
  (forall x, occ x l1 = occ x l2) <-> Permutation l1 l2.
Proof.
  rewrite (Permutation_count_occ string_dec).
  split; intros Hocc x; specialize (Hocc x); now rewrite ?occ_count in *.
Qed.

Lemma no_stop_signs (q : list (option string)) :
  stop_signs q = 0 -> q = map Some (queued q).
Proof.
  induction q as [|[r|] q IH]; simpl; intros Hq;
    [reflexivity | now rewrite <- IH | discriminate].
Qed.

Lemma fifo_stop (q : list (option string)) :
  None :: q = map Some (queued q) ++ None :: repeat None (stop_signs q) ->
  queued q = [] /\ q = repeat None (stop_signs q).
Proof.
  destruct (queued q); simpl; intros Hq; [|discriminate].
  injection Hq as Hq. tauto.
Qed.

Lemma idle_hands (ws : list worker) : total in_hand ws = 0 -> held ws = [].
Proof.
  induction ws as [|w ws IH]; simpl; [reflexivity|].
  destruct w; simpl; intros Hw; try discriminate; now apply IH.
Qed.

Lemma data_records_cons (line : string) (rest : list string) :
  data_records (line :: rest)
  = if negb (startswith hash (rstrip line))
    then rstrip line :: data_records rest
    else data_records rest.
Proof. reflexivity. Qed.

Lemma insert_line_perm `{FloatOps} (env : collaborators) (x : string)
    (l : list string) :
  Permutation (insert_line env x l) (x :: l).
Proof.
  induction l as [|y l IH]; simpl; [reflexivity|].
  destruct (key_leb env x y); [reflexivity|].
  rewrite IH. apply perm_swap.
Qed.

Lemma sort_variants_perm `{FloatOps} (env : collaborators) (l : list string) :
  Permutation (sort_variants env l) l.
Proof.
  induction l as [|x l IH]; simpl; [reflexivity|].
  rewrite insert_line_perm. now constructor.
Qed.

Create Rewrite HintDb pipe.
#[local] Hint Rewrite total_app held_app queued_app stop_signs_app
  queued_records stop_signs_records queued_stops stop_signs_stops
  occ_app map_app length_app held_repeat_idle : pipe.

Ltac pipe_simpl :=
  unfold spill, spill_line, line_of, set_drv, put_job, set_queue, task_done,
    set_results, set_annotators, set_printer, set_temp, set_printed,
    start in *;
  repeat (progress (autorewrite with pipe in *;
          cbn [in_hand stopped worker_weight held queued stop_signs total occ
               map length app joined stops_pushed pending to_push
               drv variant_queue unfinished_tasks results annotators
               var_printer temp_file created pushed printed repeat] in * ));
  unfold pool, records in *;
  try rewrite !total_repeat_idle in * by reflexivity.

Ltac pipe_close :=
  try match goal with
      | |- forall x : string, _ =>
          let x := fresh "x" in
          intros x;
          repeat match goal with
                 | Hx : forall y : string, _ |- _ => specialize (Hx x)
                 end;
          pipe_simpl
      end;
  try (lia || discriminate || tauto || assumption || reflexivity
       || (split; [discriminate | reflexivity])
       || (split; [assumption | lia])
       || (split; reflexivity)
       || apply repeat_length
       || solve [intuition (lia || congruence)]).

Section PipelineFacts.
Context `{FloatOps} (env : collaborators) (args : arguments).

Local Abbreviation inv := (inv env args).
Local Abbreviation exec := (exec env args).
Local Abbreviation run := (run env args).
Local Abbreviation weight := (weight args).

Lemma init_inv : inv init.
Proof.
  constructor; simpl.
  all: try reflexivity.
  all: try discriminate.
  all: auto.
Qed.

Lemma exec_driver_inv (s s' : state) :
  inv s -> exec_driver env args s = Some s' -> inv s'.
Proof.
  intros [I1 I2 I3 I4 I5 I6 I7 I8 I9 I10] Hex.
  unfold exec_driver in Hex.
  destruct s as [d q u r ws p t c pu pr]. simpl in *.
  destruct d as [|rest|k| | | | | | | |].
  - (* setup *)
    injection Hex as <-. destruct I3 as (-> & -> & ->).
    destruct I7 as (-> & ->).
    constructor; simpl; pipe_simpl; pipe_close.
  - (* feed *)
    destruct rest as [|line rest].
    + injection Hex as <-. constructor; simpl; pipe_simpl; pipe_close.
    + cbn [pending] in *. rewrite data_records_cons in *.
      destruct (negb (startswith hash (rstrip line))).
      * destruct (length q <? maxsize)%nat; [|discriminate].
        injection Hex as <-. constructor; simpl; pipe_simpl; pipe_close.
        -- assert (Hq : stop_signs q = 0) by lia.
           assert (Hs : total stopped ws = 0) by lia.
           rewrite Hq in *. simpl in *. rewrite app_nil_r in *.
           destruct I4 as [I4 _]. rewrite <- I4. split; [reflexivity | lia].
        -- rewrite <- app_assoc. exact I9.
      * injection Hex as <-. constructor; simpl; pipe_simpl; pipe_close.
  - (* stop signs *)
    destruct k as [|k].
    + injection Hex as <-. constructor; simpl; pipe_simpl; pipe_close.
    + destruct (length q <? maxsize)%nat; [|discriminate].
      injection Hex as <-. constructor; simpl; pipe_simpl; pipe_close.
      * destruct I4 as [I4 I4']. rewrite !app_nil_r. split; [|exact I4'].
        rewrite Nat.add_1_r. cbn [repeat].
        rewrite <- repeat_snoc, app_assoc, <- I4.
        reflexivity.
      * rewrite <- app_assoc. exact I9.
  - (* join *)
    destruct (u =? 0)%nat eqn:Hu; [|discriminate].
    apply Nat.eqb_eq in Hu.
    injection Hex as <-. constructor; simpl; pipe_simpl; pipe_close.
  - (* signal *)
    injection Hex as <-. constructor; simpl; pipe_simpl; pipe_close.
    left. split; [tauto|]. rewrite app_nil_r. f_equal.
    apply no_stop_signs, I6.
  - (* join printer *)
    destruct p; try discriminate.
    injection Hex as <-. constructor; simpl; pipe_simpl; pipe_close.
  - (* sort *)
    destruct t as [f|]; [|tauto].
    destruct (sort_raises env) eqn:Hsr.
    + injection Hex as <-. constructor; simpl; pipe_simpl; pipe_close.
    + injection Hex as <-. constructor; simpl; pipe_simpl; pipe_close.
      rewrite (proj2 (occ_permutation _ _) (sort_variants_perm env f)).
        exact I8.
  - (* emit *)
    destruct t as [f|]; [|tauto].
    destruct (emit_raises env) eqn:Hsr.
    + injection Hex as <-. constructor; simpl; pipe_simpl; pipe_close.
    + injection Hex as <-. constructor; simpl; pipe_simpl; pipe_close.
      exists f. split; [|reflexivity].
      apply occ_permutation. intros x. specialize (I8 x).
      destruct I6 as [_ ->]. specialize (I5 eq_refl). rewrite I5 in I1.
      assert (Hq : q = []) by (destruct q; [reflexivity | simpl in I1; lia]).
      subst q. rewrite (idle_hands ws) in I8 by (simpl in I1; lia).
      simpl in I8. lia.
  - (* remove *)
    destruct t as [f|]; [|tauto].
    injection Hex as <-. constructor; simpl; pipe_simpl; pipe_close.
  - discriminate.
  - discriminate.
Qed.

Lemma exec_worker_inv (i : nat) (s s' : state) :
  inv s -> exec_worker env i s = Some s' -> inv s'.
Proof.
  intros [I1 I2 I3 I4 I5 I6 I7 I8 I9 I10] Hex.
  unfold exec_worker in Hex.
  destruct s as [d q u r ws p t c pu pr]. simpl in *.
  destruct (nth_error ws i) as [w|] eqn:Hi; [|discriminate].
  destruct (update_split _ _ _ Hi) as (l1 & l2 & -> & Hup). clear Hi.
  assert (Hd : d <> DSetup).
  { intros ->. destruct I3 as [E _]. destruct l1; discriminate. }
  destruct w.
  - (* get *)
    destruct q as [|[record|] q]; [discriminate | |].
    + injection Hex as <-. rewrite !Hup.
      constructor; simpl; pipe_simpl;
        try (destruct d; try (specialize (I5 eq_refl));
             pipe_simpl; pipe_close).
    + injection Hex as <-. rewrite !Hup.
      constructor; simpl; pipe_simpl;
        try (destruct d; try (specialize (I5 eq_refl));
             pipe_simpl; pipe_close).
      all: destruct I4 as [I4 _]; apply fifo_stop in I4 as [Hq1 Hq2];
        rewrite Hq1; simpl; tauto.
  - (* push the result *)
      injection Hex as <-. rewrite !Hup.
      constructor; simpl; pipe_simpl;
        try (destruct d; try (specialize (I5 eq_refl));
             pipe_simpl; pipe_close).
  - (* task_done *)
      injection Hex as <-. rewrite !Hup.
      constructor; simpl; pipe_simpl;
        try (destruct d; try (specialize (I5 eq_refl));
             pipe_simpl; pipe_close).
  - (* task_done for the stop sign *)
      injection Hex as <-. rewrite !Hup.
      constructor; simpl; pipe_simpl;
        try (destruct d; try (specialize (I5 eq_refl));
             pipe_simpl; pipe_close).
  - discriminate.
Qed.

Lemma exec_printer_inv (s s' : state) :
  inv s -> exec_printer env s = Some s' -> inv s'.
Proof.
  intros [I1 I2 I3 I4 I5 I6 I7 I8 I9 I10] Hex.
  unfold exec_printer in Hex.
  destruct s as [d q u r ws p t c pu pr]. simpl in *.
  destruct p; try discriminate.
  destruct r as [|[record|] r]; [discriminate | |].
  - destruct t as [f|]; [|discriminate].
    injection Hex as <-.
    constructor; simpl; pipe_simpl;
      try (destruct d; try (specialize (I5 eq_refl));
           pipe_simpl; pipe_close).
  - injection Hex as <-.
    constructor; simpl; pipe_simpl;
      try (destruct d; try (specialize (I5 eq_refl));
           pipe_simpl; pipe_close).
    right. split; [reflexivity|].
    destruct I6 as [[_ I6]|[? _]]; [|discriminate].
    destruct (queued r); simpl in I6; [|discriminate].
    injection I6 as ->. reflexivity.
Qed.

Lemma exec_inv (a : action) (s s' : state) :
  inv s -> exec a s = Some s' -> inv s'.
Proof.
  destruct a; simpl.
  - apply exec_driver_inv.
  - apply exec_worker_inv.
  - apply exec_printer_inv.
Qed.

Lemma run_inv (schedule : list action) (s s' : state) :
  inv s -> run schedule s = Some s' -> inv s'.
Proof.
  revert s. induction schedule as [|a schedule IH]; simpl; intros s Hinv Hrun.
  - now injection Hrun as <-.
  - destruct (exec a s) as [s1|] eqn:Hex; [|discriminate].
    eapply IH; [eapply exec_inv|]; eassumption.
Qed.

Lemma reachable_inv (schedule : list action) (s : state) :
  run schedule init = Some s -> inv s.
Proof. apply run_inv, init_inv. Qed.

Lemma run_app (sched1 sched2 : list action) (s : state) :
  run (sched1 ++ sched2) s
  = match run sched1 s with
    | Some s' => run sched2 s'
    | None => None
    end.
Proof.
  revert s. induction sched1 as [|a sched1 IH]; simpl; intros s;
    [reflexivity|].
  destruct (exec a s); [apply IH | reflexivity].
Qed.

(** Every step makes the measure smaller. *)
Lemma exec_weight (a : action) (s s' : state) :
  exec a s = Some s' -> weight s' < weight s.
Proof.
  destruct s as [d q u r ws p t c pu pr]. unfold weight.
  destruct a as [|i|]; simpl; intros Hex.
  - unfold exec_driver in Hex. simpl in Hex.
    destruct d as [|[|line rest]|[|k]| | | | | | | |]; simpl in *;
      repeat match type of Hex with
             | context [if ?b then _ else _] => destruct b
             | context [match ?x with _ => _ end] => destruct x
             end;
      try discriminate; injection Hex as <-; simpl; pipe_simpl; lia.
  - unfold exec_worker in Hex. simpl in Hex.
    destruct (nth_error ws i) as [w|] eqn:Hi; [|discriminate].
    destruct (update_split _ _ _ Hi) as (l1 & l2 & -> & Hup). clear Hi.
    destruct w; [destruct q as [|[record|] q]| | | |]; try discriminate;
      injection Hex as <-; rewrite !Hup; simpl; pipe_simpl; lia.
  - unfold exec_printer in Hex. simpl in Hex.
    destruct p; try discriminate.
    destruct r as [|[record|] r]; [discriminate | |].
    + destruct t; [|discriminate]. injection Hex as <-. simpl. lia.
    + injection Hex as <-. simpl. lia.
Qed.

Lemma live_worker (ws : list worker) :
  total stopped ws < length ws ->
  exists i w, nth_error ws i = Some w /\ stopped w = 0.
Proof.
  induction ws as [|w ws IH]; simpl; [lia|]. intros Hlt.
  destruct (stopped w) eqn:Hw.
  - now exists 0, w.
  - destruct IH as (i & w' & Hi & Hw').
    + destruct w; simpl in *; try discriminate; lia.
    + now exists (S i), w'.
Qed.

Lemma busy_worker (ws : list worker) :
  0 < total in_hand ws ->
  exists i w, nth_error ws i = Some w /\ in_hand w = 1.
Proof.
  induction ws as [|w ws IH]; simpl; [lia|]. intros Hlt.
  destruct (in_hand w) eqn:Hw.
  - destruct (IH Hlt) as (i & w' & Hi & Hw'). now exists (S i), w'.
  - exists 0, w. split; [reflexivity|]. destruct w; simpl in *; congruence.
Qed.

Lemma worker_enabled (s : state) (i : nat) (w : worker) :
  nth_error (annotators s) i = Some w ->
  in_hand w = 1 \/ (stopped w = 0 /\ variant_queue s <> []) ->
  exists s', exec_worker env i s = Some s'.
Proof.
  intros Hi Hw. unfold exec_worker. rewrite Hi.
  destruct w; simpl in Hw; try (eexists; reflexivity).
  - destruct Hw as [|[_ Hq]]; [discriminate|].
    destruct (variant_queue s) as [|[record|] q]; [congruence | |];
      eexists; reflexivity.
  - destruct Hw as [|[? _]]; discriminate.
Qed.

(** With at least one worker, a run that has not ended can go on. *)
Lemma progress (s : state) :
  inv s -> 0 < pool args ->
  drv s <> DEnd -> drv s <> DCrashed ->
  exists a s', exec a s = Some s'.
Proof.
  intros [I1 I2 I3 I4 I5 I6 I7 I8 I9 I10] Hpool Hend Hcrash.
  assert (Hworker :
    drv s <> DSetup ->
    total stopped (annotators s) < pool args ->
    variant_queue s <> [] ->
    exists a s', exec a s = Some s').
  { intros Hd Hlt Hq.
    destruct (live_worker (annotators s)) as (i & w & Hi & Hw).
    - destruct (drv s); try congruence; lia.
    - destruct (worker_enabled s i w Hi) as [s' Hs']; [tauto|].
      now exists (Worker i), s'. }
  assert (Hfull :
    (length (variant_queue s) <? maxsize)%nat = false ->
    variant_queue s <> []).
  { intros Hf. apply Nat.ltb_ge in Hf. unfold maxsize in Hf.
    destruct (variant_queue s); [simpl in Hf; lia | discriminate]. }
  destruct s as [d q u r ws p t c pu pr]. simpl in *.
  destruct d as [|[|line rest]|[|k]| | | | | | | |]; try congruence;
    try (exists Driver; simpl; unfold exec_driver; simpl;
         eexists; reflexivity);
    cbn [to_push joined pending] in *.
  - (* feed *)
    destruct (negb (startswith hash (rstrip line))) eqn:Hdata.
    + destruct (length q <? maxsize)%nat eqn:Hroom.
      * exists Driver. simpl. unfold exec_driver. simpl.
        rewrite Hdata, Hroom. eexists; reflexivity.
      * apply Hworker; [discriminate | | auto]. unfold pool in *. lia.
    + exists Driver. simpl. unfold exec_driver. simpl.
      rewrite Hdata. eexists; reflexivity.
  - (* stop signs *)
    destruct (length q <? maxsize)%nat eqn:Hroom.
    + exists Driver. simpl. unfold exec_driver. simpl.
      rewrite Hroom. eexists; reflexivity.
    + apply Hworker; [discriminate | | auto]. unfold pool in *. lia.
  - (* join *)
    destruct u as [|u].
    + exists Driver. simpl. unfold exec_driver. simpl. eexists; reflexivity.
    + destruct (total in_hand ws) eqn:Hh.
      * assert (Hq : q <> [])
          by (destruct q; [simpl in I1; lia | discriminate]).
        apply Hworker; [discriminate | | exact Hq].
        destruct I4 as [I4 I4']. simpl in I2.
        destruct (stop_signs q) eqn:Hs; [|unfold pool in *; lia].
        destruct (total stopped ws) eqn:Hst; [lia|].
        rewrite I4' in I4 by lia. simpl in I4. congruence.
      * destruct (busy_worker ws) as (i & w & Hi & Hw); [lia|].
        destruct (worker_enabled
                    {| drv := DJoinQueue; variant_queue := q;
                       unfinished_tasks := S u; results := r;
                       annotators := ws; var_printer := p; temp_file := t;
                       created := c; pushed := pu; printed := pr |}
                    i w Hi) as [s' Hs']; [tauto|].
        now exists (Worker i), s'.
  - (* join printer *)
    destruct I6 as [[-> Hr]|[-> _]].
    + exists Printer. simpl. unfold exec_printer. simpl.
      destruct r as [|[record|] r].
      * destruct (queued []); discriminate.
      * destruct t; [eexists; reflexivity | tauto].
      * eexists; reflexivity.
    + exists Driver. simpl. unfold exec_driver. simpl. eexists; reflexivity.
  - (* sort *)
    exists Driver. simpl. unfold exec_driver. simpl.
    destruct t; [|eexists; reflexivity].
    destruct (sort_raises env); eexists; reflexivity.
  - exists Driver. simpl. unfold exec_driver. simpl.
    destruct t; [|eexists; reflexivity].
    destruct (emit_raises env); eexists; reflexivity.
  - exists Driver. simpl. unfold exec_driver. simpl.
    destruct t; eexists; reflexivity.
Qed.

(** With at least one worker, every state of a run can be continued to the
    end of the run. *)
Lemma completes (n : nat) (s : state) :
  weight s < n -> inv s -> 0 < pool args ->
  exists schedule s',
    run schedule s = Some s' /\ (drv s' = DEnd \/ drv s' = DCrashed).
Proof.
  revert s. induction n as [|n IH]; intros s Hn Hinv Hpool; [lia|].
  destruct (drv s) eqn:Hd;
    try (destruct (progress s Hinv Hpool) as (a & s1 & Hex);
         [congruence | congruence |];
         destruct (IH s1) as (schedule & s' & Hrun & Hfin);
         [pose proof (exec_weight a s s1 Hex); lia
         | eapply exec_inv; eassumption | assumption |];
         exists (a :: schedule), s'; simpl; rewrite Hex; tauto).
  - exists [], s. simpl. tauto.
  - exists [], s. simpl. tauto.
Qed.

End PipelineFacts.

(* ------------------------------------------------------------------ *)
(** ** The pipeline: what a run guarantees *)

Lemma all_done (ws : list worker) :
  total stopped ws = length ws -> total in_hand ws = 0 ->
  Forall (fun w => w = WDone) ws.
Proof.
  induction ws as [|w ws IH]; simpl; intros Hs Hh; [constructor|].
  assert (Hle : total stopped ws <= length ws).
  { clear. induction ws as [|w ws IH]; simpl; [lia|].
    destruct w; simpl; lia. }
  destruct w; simpl in *; try lia; constructor; auto.
Qed.

Lemma done_workers_rest `{FloatOps} (env : collaborators) (i : nat)
    (s : state) :
  Forall (fun w => w = WDone) (annotators s) -> exec_worker env i s = None.
Proof.
  intros Hall. unfold exec_worker.
  destruct (nth_error (annotators s) i) as [w|] eqn:Hi; [|reflexivity].
  apply nth_error_In in Hi. rewrite Forall_forall in Hall.
  now rewrite (Hall w Hi).
Qed.

Section Guarantees.
Context `{FloatOps} (env : collaborators) (args : arguments).

(** Once the driver is past [var_printer.join()], nothing else moves. *)
Lemma quiet (s : state) :
  inv env args s -> printer_joined (drv s) = true ->
  variant_queue s = [] /\ unfinished_tasks s = 0
  /\ Forall (fun w => w = WDone) (annotators s)
  /\ results s = [] /\ var_printer s = PDone.
Proof.
  intros [I1 I2 I3 I4 I5 I6 I7 I8 I9 I10] Hd.
  assert (Hj : joined (drv s) = true) by (destruct (drv s); auto).
  specialize (I5 Hj). rewrite I5 in I1.
  assert (Hq : variant_queue s = [])
    by (destruct (variant_queue s); [reflexivity | simpl in I1; lia]).
  rewrite Hq in *. simpl in I1, I2.
  assert (Hp : length (annotators s) = pool args /\ to_push args (drv s) = 0
               /\ var_printer s = PDone /\ results s = []).
  { destruct (drv s); try discriminate; simpl; tauto. }
  destruct Hp as (Hlen & Hpush & Hp & Hr).
  repeat split; auto. apply all_done; lia.
Qed.

(** The lines [print_variant] emits for the spill lines of a list of
    records. *)
Lemma emit_spill_lines (l : list string) :
  (forall annotated, key_ok (format (priority env annotated))) ->
  emit args (map (spill_line env) l)
  = flat_map
      (fun record =>
         emitted (outfile args) (silent args)
           (rstrip (annotation env record)))
      l.
Proof.
  intros Hkey. unfold emit.
  induction l as [|record l IH]; [reflexivity|].
  cbn [map flat_map]. rewrite IH. f_equal.
  unfold spill_line, line_of. rewrite sorting_text_eq.
  rewrite !string_app_assoc.
  rewrite print_variant_modified by apply Hkey.
  rewrite rstrip_newline. reflexivity.
Qed.

Lemma emitted_length (l : list string) :
  outfile args <> None \/ silent args = false ->
  length (flat_map
            (fun record =>
               emitted (outfile args) (silent args)
                 (rstrip (annotation env record))) l)
  = length l.
Proof.
  intros Hon. induction l as [|record l IH]; [reflexivity|].
  cbn [flat_map]. rewrite length_app, IH. unfold emitted.
  destruct (outfile args); [reflexivity|].
  destruct Hon as [Hon | ->]; [congruence | reflexivity].
Qed.

End Guarantees.



(** C3, as stated, fails: when [sort_variants] raises, the run ends with
    the temporary file still in place, and nothing moves any more. *)
Lemma C3_counterexample :
  exists s,
    run (example_env true false) example_args
      (example_schedule_to_sort ++ [Driver]) init = Some s
    /\ drv s = DCrashed
    /\ temp_file s <> None
    /\ forall a, exec (example_env true false) example_args a s = None.
Proof.
  eexists. split; [vm_compute; reflexivity|].
  split; [reflexivity|]. split; [discriminate|].
  intros [|i|]; try reflexivity.
  destruct i as [|[|i]]; try reflexivity. destruct i; reflexivity.
Qed.

(** C3, amended: a run creates exactly one temporary file, and the driver
    removes it when the run returns normally; when the run is left by an
    exception after the file was created, the file stays. *)
Theorem C3_temp_file :
  forall `{FloatOps} (env : collaborators) (args : arguments)
         (schedule : list action) (s : state),
    run env args schedule init = Some s ->
    created s <= 1
    /\ (drv s <> DSetup -> created s = 1)
    /\ (drv s = DEnd -> temp_file s = None)
    /\ (drv s = DCrashed -> temp_file s <> None).
Proof.
  intros F env args schedule s Hrun.
  pose proof (inv_temp env args s (reachable_inv env args schedule s Hrun))
    as Ht.
  destruct (drv s); repeat split; try congruence; try tauto; try lia.
Qed.

Lemma C3_witness :
  exists s,
    run (example_env false false) example_args example_schedule init = Some s
    /\ created s = 1 /\ temp_file s = None.
Proof.
  destruct (run (example_env false false) example_args example_schedule init)
    as [s|] eqn:Hrun; [|vm_compute in Hrun; discriminate].
  assert (Hend : drv s = DEnd).
  { vm_compute in Hrun. injection Hrun as <-. reflexivity. }
  destruct (@C3_temp_file int_literals (example_env false false)
              example_args example_schedule s Hrun) as (_ & Hc & Hr & _).
  exists s. split; [reflexivity|]. split; [apply Hc; congruence | now apply Hr].
Defined.

(** C4: while the driver pushes the stop signs, the history of its [put]
    calls is all data records followed by the stop signs pushed so far;
    once it has left that loop the history is all data records followed by
    exactly one stop sign per started worker, [num_annotators] of them. *)
Theorem C4_stop_signs :
  forall `{FloatOps} (env : collaborators) (args : arguments)
         (schedule : list action) (s : state),
    run env args schedule init = Some s ->
    (forall k, drv s = DStop k ->
       k <= pool args
       /\ pushed s = map Some (records args) ++ repeat None (pool args - k))
    /\ (stops_pushed (drv s) = true ->
        pushed s
        = map Some (records args) ++ repeat None (length (annotators s))
        /\ length (annotators s) = Z.to_nat (workers args)).
Proof.
  intros F env args schedule s Hrun.
  pose proof (reachable_inv env args schedule s Hrun)
    as [I1 I2 I3 I4 I5 I6 I7 I8 I9 I10].
  split.
  - intros k Hk. rewrite Hk in *. cbn [pending to_push map app] in *.
    assert (Hle : k <= pool args) by lia. split; [exact Hle|].
    replace (pool args) with ((pool args - k) + k) in I9 at 1 by lia.
    rewrite repeat_app, app_assoc in I9.
    now apply app_inv_tail in I9.
  - intros Hd.
    assert (Hlen : length (annotators s) = pool args)
      by (destruct (drv s); try discriminate; exact I3).
    assert (Hpush : pending args (drv s) = [] /\ to_push args (drv s) = 0)
      by (destruct (drv s); try discriminate; split; reflexivity).
    destruct Hpush as [Hp1 Hp2]. rewrite Hp1, Hp2 in I9.
    cbn [map repeat app] in I9. rewrite app_nil_r in I9.
    rewrite Hlen. split; [exact I9 | reflexivity].
Qed.

Lemma C4_witness :
  exists s,
    run (example_env false false) example_args example_schedule_to_sort init
    = Some s
    /\ pushed s
       = [Some (vcf_line ["1"; "100"; "."; "A"; "T"; "."; "PASS"; "DP=10"]);
          Some (vcf_line ["2"; "200"; "."; "G"; "C"; "."; "PASS"; "DP=20"]);
          None; None]
    /\ length (annotators s) = 2.
Proof.
  destruct (run (example_env false false) example_args
              example_schedule_to_sort init) as [s|] eqn:Hrun;
    [|vm_compute in Hrun; discriminate].
  assert (Hd : stops_pushed (drv s) = true).
  { vm_compute in Hrun. injection Hrun as <-. reflexivity. }
  destruct (@C4_stop_signs int_literals (example_env false false)
              example_args example_schedule_to_sort s Hrun) as [_ Hall].
  destruct (Hall Hd) as [Hp Hl].
  exists s. split; [reflexivity|]. split; [|exact Hl].
  rewrite Hp, Hl. reflexivity.
Defined.

(** C5: when the driver calls [sort_variants], the work queue is empty and
    has no unfinished task, every worker has terminated, the result queue
    is empty and the printer has terminated; neither a worker nor the
    printer can move while the sort runs. *)
Theorem C5_sort_after_join :
  forall `{FloatOps} (env : collaborators) (args : arguments)
         (schedule : list action) (s : state),
    run env args schedule init = Some s ->
    drv s = DSort ->
    variant_queue s = [] /\ unfinished_tasks s = 0
    /\ Forall (fun w => w = WDone) (annotators s)
    /\ results s = [] /\ var_printer s = PDone
    /\ (forall i, exec_worker env i s = None)
    /\ exec_printer env s = None.
Proof.
  intros F env args schedule s Hrun Hd.
  destruct (quiet env args s) as (Hq & Hu & Hw & Hr & Hp).
  - eapply reachable_inv; eassumption.
  - now rewrite Hd.
  - repeat split; auto.
    + intros i. now apply done_workers_rest.
    + unfold exec_printer. now rewrite Hp.
Qed.

Lemma C5_witness :
  exists s,
    run (example_env false false) example_args example_schedule_to_sort init
    = Some s
    /\ drv s = DSort
    /\ Forall (fun w => w = WDone) (annotators s)
    /\ var_printer s = PDone.
Proof.
  destruct (run (example_env false false) example_args
              example_schedule_to_sort init) as [s|] eqn:Hrun;
    [|vm_compute in Hrun; discriminate].
  assert (Hd : drv s = DSort).
  { vm_compute in Hrun. injection Hrun as <-. reflexivity. }
  destruct (@C5_sort_after_join int_literals (example_env false false)
              example_args example_schedule_to_sort s Hrun Hd)
    as (_ & _ & Hw & _ & Hp & _).
  exists s. split; [reflexivity|]. split; [exact Hd|]. split; assumption.
Defined.

(* ------------------------------------------------------------------ *)
(** ** More on the emitters *)

Lemma rstrip_length (s : string) : String.length (rstrip s) <= String.length s.
Proof.
  induction s as [|c s IH]; simpl; [lia|].
  destruct (rstrip s) as [|d r]; [destruct (isspace c); simpl; lia|].
  simpl in *. lia.
Qed.

Lemma rstrip_idempotent (s : string) : rstrip (rstrip s) = rstrip s.
Proof.
  induction s as [|c s IH]; simpl; [reflexivity|].
  destruct (rstrip s) as [|d r] eqn:Hs.
  - destruct (isspace c) eqn:Hc; simpl; [reflexivity | now rewrite Hc].
  - cbn [rstrip] in IH |- *. rewrite IH. reflexivity.
Qed.

Lemma startswith_rstrip (c : ascii) (s : string) :
  isspace c = false -> startswith c (rstrip s) = startswith c s.
Proof.
  intros Hc. destruct s as [|d s]; simpl; [reflexivity|].
  destruct (rstrip s) as [|e r]; [|reflexivity].
  destruct (isspace d) eqn:Hd; [|reflexivity]. simpl.
  destruct (Ascii.eqb_spec d c) as [->|_]; congruence.
Qed.

Lemma tl_split_tab (s : string) :
  join TAB (tl (split tab s)) = after_first_tab s.
Proof.
  induction s as [|c s IH]; [reflexivity|]. cbn [split after_first_tab].
  destruct (Ascii.eqb c tab).
  - cbn [tl]. apply join_split.
  - pose proof (split_not_nil tab s) as Hnil.
    destruct (split tab s) as [|f fs]; [congruence|]. exact IH.
Qed.

Lemma string_app_inv_head (a b c : string) :
  (a ++ b = a ++ c)%string -> b = c.
Proof. induction a; simpl; intros Heq; [assumption|]. injection Heq. auto. Qed.

Lemma string_app_length (a b : string) :
  String.length (a ++ b) = String.length a + String.length b.
Proof. induction a; simpl; lia. Qed.

Lemma after_first_tab_spec (s : string) :
  contains tab s = false /\ after_first_tab s = EmptyString
  \/ exists k, contains tab k = false
               /\ s = (k ++ TAB ++ after_first_tab s)%string.
Proof.
  induction s as [|c s IH]; [left; split; reflexivity|].
  cbn [contains after_first_tab].
  destruct (Ascii.eqb_spec c tab) as [->|Hne].
  - right. exists EmptyString. split; reflexivity.
  - destruct IH as [[Hc Ha]|(k & Hk & Hs)].
    + left. simpl. tauto.
    + right. exists (String c k). split.
      * simpl. apply Ascii.eqb_neq in Hne. now rewrite Hne.
      * change (String c s
                = String c (k ++ TAB ++ after_first_tab s)%string).
        now f_equal.
Qed.



(** X2: in every mode but ['modified'] a variant line is emitted as it
    came in, without its trailing whitespace. *)
Theorem print_variant_plain :
  forall (variant_line mode : string) (outfile : option handle)
         (silent : bool),
    startswith hash variant_line = false ->
    String.eqb mode "modified" = false ->
    vcf_tools.print_variant variant_line outfile mode silent
    = emitted outfile silent (rstrip variant_line).
Proof.
  intros variant_line mode outfile silent Hdata Hmode.
  unfold vcf_tools.print_variant, vcf_tools.printed_fields, emitted.
  rewrite Hdata, Hmode. cbn [negb]. rewrite (join_split tab).
  destruct outfile; [reflexivity|]. now destruct silent.
Qed.

Lemma print_variant_plain_witness :
  vcf_tools.print_variant (vcf_line ["1"; "100"; "rs1"; ""] ++ NL)
    (Some "out.vcf") "vcf" false
  = [Write "out.vcf" (vcf_line ["1"; "100"; "rs1"] ++ NL)].
Proof.
  apply (print_variant_plain (vcf_line ["1"; "100"; "rs1"; ""] ++ NL) "vcf"
           (Some "out.vcf") false); reflexivity.
Defined.

(** X3: in mode ['modified'] a variant line is emitted without its
    trailing whitespace and without everything up to its first TAB; a line
    of one column is emitted as an empty line. *)
Theorem print_variant_modified_any :
  forall (variant_line : string) (outfile : option handle) (silent : bool),
    startswith hash variant_line = false ->
    vcf_tools.print_variant variant_line outfile "modified" silent
    = emitted outfile silent (after_first_tab (rstrip variant_line))
    /\ (contains tab (rstrip variant_line) = false ->
        vcf_tools.print_variant variant_line outfile "modified" silent
        = emitted outfile silent EmptyString).
Proof.
  intros variant_line outfile silent Hdata.
  assert (Hall : vcf_tools.print_variant variant_line outfile "modified"
                   silent
                 = emitted outfile silent
                     (after_first_tab (rstrip variant_line))).
  { unfold vcf_tools.print_variant, vcf_tools.printed_fields, emitted.
    rewrite Hdata. cbn [negb String.eqb Ascii.eqb Bool.eqb].
    change (String.eqb "modified" "modified") with true. cbv iota.
    rewrite tl_split_tab.
    destruct outfile; [reflexivity|]. now destruct silent. }
  split; [exact Hall|]. intros Hc. rewrite Hall.
  destruct (after_first_tab_spec (rstrip variant_line))
    as [[_ ->]|(k & _ & Hs)]; [reflexivity|].
  exfalso. rewrite Hs in Hc. clear -Hc.
  induction k as [|c k IH]; simpl in Hc; [discriminate|].
  apply orb_false_iff in Hc as [_ Hc]. auto.
Qed.

Lemma print_variant_modified_any_witness :
  vcf_tools.print_variant "chr1" (Some "out.vcf") "modified" false
  = [Write "out.vcf" NL].
Proof.
  apply (print_variant_modified_any "chr1" (Some "out.vcf") false);
    reflexivity.
Defined.

(** X4: what [print_variant] writes can be read back: given again to
    [print_variant] in a mode other than ['modified'], a written line is
    written unchanged. *)
Theorem print_variant_reprint :
  forall (variant_line mode mode' g g' : string) (silent silent' : bool)
         (text : string),
    vcf_tools.print_variant variant_line (Some g) mode silent
    = [Write g text] ->
    String.eqb mode' "modified" = false ->
    startswith hash text = false ->
    vcf_tools.print_variant text (Some g') mode' silent' = [Write g' text].
Proof.
  intros variant_line mode mode' g g' silent silent' text Hw Hmode Hdata.
  rewrite print_variant_plain by assumption. unfold emitted. do 2 f_equal.
  unfold vcf_tools.print_variant in Hw.
  destruct (negb (startswith hash variant_line)); [|discriminate].
  injection Hw as <-. rewrite rstrip_newline. f_equal.
  unfold vcf_tools.printed_fields.
  destruct (String.eqb mode "modified").
  - rewrite tl_split_tab.
    pose proof (rstrip_idempotent variant_line) as Hi.
    remember (rstrip variant_line) as t eqn:Ht. clear Ht.
    destruct (after_first_tab_spec t) as [[_ ->]|(k & Hk & Hs)];
      [reflexivity|].
    remember (after_first_tab t) as u eqn:Hu. clear Hu. subst t.
    rewrite rstrip_key_column in Hi.
    destruct (rstrip u) as [|d r] eqn:Hr.
    + exfalso. pose proof (rstrip_length k) as Hlen.
      rewrite Hi, !string_app_length in Hlen. simpl in Hlen. lia.
    + apply string_app_inv_head in Hi. now apply string_app_inv_head in Hi.
  - rewrite (join_split tab). apply rstrip_idempotent.
Qed.

Lemma print_variant_reprint_witness :
  vcf_tools.print_variant (vcf_line ["1"; "100"; "rs1"] ++ NL)
    (Some "copy.vcf") "vcf" true
  = [Write "copy.vcf" (vcf_line ["1"; "100"; "rs1"] ++ NL)].
Proof.
  apply (print_variant_reprint (vcf_line ["5"; "1"; "100"; "rs1"; " "])
           "modified" "vcf" "out.vcf" "copy.vcf" false true);
    reflexivity.
Defined.

(* ------------------------------------------------------------------ *)
(** ** More on the sort helpers *)

Lemma contains_app (c : ascii) (a b : string) :
  contains c (a ++ b) = contains c a || contains c b.
Proof.
  induction a as [|d a IH]; simpl; [reflexivity|].
  now rewrite IH, orb_assoc.
Qed.

(** X5: the priority-taking helper adds no line end: when neither the
    priority text nor the lines hold one, what two calls write one after
    the other is a single line. *)
Theorem sorting_text_no_line_end :
  forall `{FloatOps} (L1 L2 : string) (p1 p2 : value),
    contains newline (format p1) = false ->
    contains newline (format p2) = false ->
    contains newline L1 = false ->
    contains newline L2 = false ->
    contains newline
      (vcf_tools.sorting_text L1 p1 ++ vcf_tools.sorting_text L2 p2) = false
    /\ split newline
         (vcf_tools.sorting_text L1 p1 ++ vcf_tools.sorting_text L2 p2)
       = [(format p1 ++ TAB ++ L1 ++ format p2 ++ TAB ++ L2)%string].
Proof.
  intros F L1 L2 p1 p2 H1 H2 H3 H4.
  assert (Hc : contains newline
                 (vcf_tools.sorting_text L1 p1
                  ++ vcf_tools.sorting_text L2 p2) = false).
  { rewrite !sorting_text_eq, !contains_app, H1, H2, H3, H4. reflexivity. }
  split; [exact Hc|]. rewrite split_without by exact Hc.
  rewrite !sorting_text_eq, !string_app_assoc. reflexivity.
Qed.

Lemma sorting_text_no_line_end_witness :
  split newline
    (@vcf_tools.sorting_text int_literals (vcf_line ["1"; "100"]) (PyInt 1)
     ++ @vcf_tools.sorting_text int_literals (vcf_line ["2"; "200"])
          (PyInt 2))
  = [(vcf_line ["1"; "1"; "100"] ++ vcf_line ["2"; "2"; "200"])%string].
Proof.
  apply (@sorting_text_no_line_end int_literals (vcf_line ["1"; "100"])
           (vcf_line ["2"; "200"]) (PyInt 1) (PyInt 2)); reflexivity.
Defined.

Section RankScoreFacts.
Context `{FloatOps}.

Lemma info_loop_skip (family_id : option string) (annotations : list string)
    (key value : option string) (rank_score : Py.value) :
  Forall other_annotation annotations ->
  utils.info_loop family_id annotations key value rank_score = Ok rank_score.
Proof.
  intros Hall. revert key value.
  induction Hall as [|a rest (k & v & Ha & Hk) _ IH]; intros key value;
    [reflexivity|].
  cbn [utils.info_loop]. rewrite Ha. cbn.
  destruct (String.eqb_spec k "RankScore") as [|_]; [contradiction|].
  apply IH.
Qed.

Lemma info_loop_unique (family_id : option string)
    (pre post : list string) (a v : string) (key value : option string)
    (rank_score : Py.value) :
  Forall other_annotation pre -> Forall other_annotation post ->
  split "="%char a = ["RankScore"; v] ->
  utils.info_loop family_id (pre ++ a :: post) key value rank_score
  = utils.family_loop family_id (split ","%char v) rank_score.
Proof.
  intros Hpre Hpost Ha. revert key value.
  induction Hpre as [|b pre (k & w & Hb & Hk) _ IH]; intros key value.
  - cbn [app utils.info_loop]. rewrite Ha. cbn [length Nat.eqb nth_error].
    change (String.eqb "RankScore" "RankScore") with true. cbv iota.
    destruct (utils.family_loop family_id (split ","%char v) rank_score)
      as [r|e]; cbn [bind]; [|reflexivity].
    now apply info_loop_skip.
  - cbn [app utils.info_loop]. rewrite Hb. cbn.
    destruct (String.eqb_spec k "RankScore") as [|_]; [contradiction|].
    apply IH.
Qed.

Lemma family_loop_match (family_id : string) (pre post : list string)
    (entry score : string) (tail : list string) (rank_score : value)
    (x : float) :
  family_id <> EmptyString ->
  Forall (fun e => hd EmptyString (split ":"%char e) <> family_id) pre ->
  Forall (fun e => hd EmptyString (split ":"%char e) <> family_id) post ->
  split ":"%char entry = family_id :: score :: tail ->
  float_of_string score = Some x ->
  utils.family_loop (Some family_id) (pre ++ entry :: post) rank_score
  = Ok (PyFloat x).
Proof.
  intros Hid Hpre Hpost He Hx.
  destruct family_id as [|c family_id]; [congruence|].
  revert rank_score.
  induction Hpre as [|e pre Hne _ IH]; intros rank_score.
  - cbn [app utils.family_loop truthy]. rewrite He.
    unfold index, to_float. cbn [nth_error bind]. rewrite String.eqb_refl, Hx.
    cbn [bind]. now apply family_loop_no_match.
  - cbn [app utils.family_loop truthy].
    pose proof (split_not_nil ":"%char e) as Hnil.
    destruct (split ":"%char e) as [|fam tl]; [congruence|].
    unfold index. cbn [nth_error bind hd] in *.
    destruct (String.eqb_spec (String c family_id) fam) as [Heq|_];
      [now symmetry in Heq | apply IH].
Qed.

Lemma family_loop_numeric (family_id : option string)
    (entries : list string) (rank_score r : value) :
  numeric_key rank_score ->
  utils.family_loop family_id entries rank_score = Ok r ->
  numeric_key r.
Proof.
  revert rank_score.
  induction entries as [|e entries IH]; intros rank_score Hrs Hr.
  - injection Hr as <-. exact Hrs.
  - cbn [utils.family_loop] in Hr.
    destruct (truthy family_id).
    + destruct (index (split ":"%char e) 0) as [fam|]; [|discriminate].
      cbn [bind] in Hr.
      destruct (String.eqb _ fam); [|eapply IH; eassumption].
      destruct (index (split ":"%char e) 1) as [score|]; [|discriminate].
      cbn [bind] in Hr. unfold to_float in Hr.
      destruct (float_of_string score) as [x|]; [|discriminate].
      cbn [bind] in Hr. eapply IH; [|exact Hr]. right. eauto.
    + destruct (index (split ":"%char e) 1) as [score|]; [|discriminate].
      cbn [bind] in Hr. unfold to_float in Hr.
      destruct (float_of_string score) as [x|]; [|discriminate].
      injection Hr as <-. right. eauto.
Qed.

Lemma info_loop_numeric (family_id : option string)
    (annotations : list string) (key value : option string)
    (rank_score r : Py.value) :
  numeric_key rank_score ->
  utils.info_loop family_id annotations key value rank_score = Ok r ->
  numeric_key r.
Proof.
  revert key value rank_score.
  induction annotations as [|a annotations IH];
    intros key value rank_score Hrs Hr.
  - injection Hr as <-. exact Hrs.
  - cbn [utils.info_loop] in Hr.
    destruct (if (length (split "="%char a) =? 2)%nat
              then (nth_error (split "="%char a) 0,
                    nth_error (split "="%char a) 1)
              else (key, value)) as [key' value'].
    destruct key' as [k|]; [|discriminate].
    destruct (String.eqb k "RankScore"); [|eapply IH; eassumption].
    destruct value' as [v|]; [|discriminate].
    destruct (utils.family_loop family_id (split ","%char v) rank_score)
      as [r'|] eqn:Hf; [|discriminate].
    cbn [bind] in Hr. eapply IH; [|exact Hr].
    eapply family_loop_numeric; eassumption.
Qed.

Lemma family_loop_empty_id (entries : list string) (rank_score : value) :
  utils.family_loop (Some EmptyString) entries rank_score
  = utils.family_loop None entries rank_score.
Proof. destruct entries; reflexivity. Qed.

Lemma info_loop_empty_id (annotations : list string)
    (key value : option string) (rank_score : Py.value) :
  utils.info_loop (Some EmptyString) annotations key value rank_score
  = utils.info_loop None annotations key value rank_score.
Proof.
  revert key value rank_score.
  induction annotations as [|a annotations IH]; intros key value rank_score;
    [reflexivity|].
  cbn [utils.info_loop].
  destruct (if (length (split "="%char a) =? 2)%nat
            then (nth_error (split "="%char a) 0,
                  nth_error (split "="%char a) 1)
            else (key, value)) as [key' value'].
  destruct key' as [k|]; [|reflexivity].
  destruct (String.eqb k "RankScore"); [|apply IH].
  destruct value' as [v|]; [|reflexivity].
  rewrite family_loop_empty_id.
  destruct (utils.family_loop None (split ","%char v) rank_score);
    cbn [bind]; [apply IH | reflexivity].
Qed.

End RankScoreFacts.

(** X6: for a line whose info field is made of [k=v] annotations with
    exactly one RankScore among them, at any position, and a family id
    that exactly one of its family entries carries, the extracting helper
    writes the score of that entry in front of the unchanged line. *)
Theorem rank_score_of_family :
  forall `{FloatOps} (variant_line info a v family_id entry score : string)
         (pre post epre epost tail : list string) (outfile : handle)
         (x : float),
    nth_error (split tab variant_line) 7 = Some info ->
    split ";"%char info = pre ++ a :: post ->
    Forall other_annotation pre -> Forall other_annotation post ->
    split "="%char a = ["RankScore"; v] ->
    family_id <> EmptyString ->
    split ","%char v = epre ++ entry :: epost ->
    Forall (fun e => hd EmptyString (split ":"%char e) <> family_id) epre ->
    Forall (fun e => hd EmptyString (split ":"%char e) <> family_id) epost ->
    split ":"%char entry = family_id :: score :: tail ->
    float_of_string score = Some x ->
    utils.print_variant_for_sorting variant_line outfile (Some family_id)
    = Ok [Write outfile (string_of_float x ++ TAB ++ variant_line)].
Proof.
  intros F variant_line info a v family_id entry score pre post epre epost
    tail outfile x Hinfo Hsplit Hpre Hpost Ha Hid Hv Hepre Hepost He Hx.
  unfold utils.print_variant_for_sorting, utils.rank_score_of, index.
  rewrite Hinfo. cbn [bind]. rewrite Hsplit.
  rewrite info_loop_unique with (v := v) by assumption.
  rewrite Hv, family_loop_match with (score := score) (tail := tail) (x := x)
    by assumption.
  cbn [bind format]. now rewrite (join_split tab).
Qed.

Lemma rank_score_of_family_witness :
  @utils.print_variant_for_sorting int_literals
    (vcf_line ["1"; "100"; "."; "A"; "T"; "."; "PASS";
               "DP=10;RankScore=fam1:12,fam2:3;AF=1"])
    "spill" (Some "fam2")
  = Ok [Write "spill"
          ("3.0" ++ TAB
           ++ vcf_line ["1"; "100"; "."; "A"; "T"; "."; "PASS";
                        "DP=10;RankScore=fam1:12,fam2:3;AF=1"])].
Proof.
  apply (@rank_score_of_family int_literals _
           "DP=10;RankScore=fam1:12,fam2:3;AF=1" "RankScore=fam1:12,fam2:3"
           "fam1:12,fam2:3" "fam2" "fam2:3" "3" ["DP=10"] ["AF=1"]
           ["fam1:12"] [] [] "spill" 3%Z); try reflexivity.
  - repeat constructor. exists "DP", "10". split; [reflexivity|discriminate].
  - repeat constructor. exists "AF", "1". split; [reflexivity|discriminate].
  - discriminate.
  - repeat constructor. discriminate.
  - constructor.
Defined.

(** X7: for such a line and no family id, the helper writes the score of
    the first family entry of the RankScore annotation. *)
Theorem rank_score_of_first_family :
  forall `{FloatOps} (variant_line info a v entry fam score : string)
         (pre post entries tail : list string) (outfile : handle)
         (family_id : option string) (x : float),
    nth_error (split tab variant_line) 7 = Some info ->
    split ";"%char info = pre ++ a :: post ->
    Forall other_annotation pre -> Forall other_annotation post ->
    split "="%char a = ["RankScore"; v] ->
    truthy family_id = false ->
    split ","%char v = entry :: entries ->
    split ":"%char entry = fam :: score :: tail ->
    float_of_string score = Some x ->
    utils.print_variant_for_sorting variant_line outfile family_id
    = Ok [Write outfile (string_of_float x ++ TAB ++ variant_line)].
Proof.
  intros F variant_line info a v entry fam score pre post entries tail outfile
    family_id x Hinfo Hsplit Hpre Hpost Ha Hid Hv He Hx.
  unfold utils.print_variant_for_sorting, utils.rank_score_of, index.
  rewrite Hinfo. cbn [bind]. rewrite Hsplit.
  rewrite info_loop_unique with (v := v) by assumption.
  rewrite Hv, family_loop_first with (fam := fam) (score := score)
                                     (tail := tail) (x := x) by assumption.
  cbn [bind format]. now rewrite (join_split tab).
Qed.

Lemma rank_score_of_first_family_witness :
  @utils.print_variant_for_sorting int_literals
    (vcf_line ["1"; "100"; "."; "A"; "T"; "."; "PASS";
               "DP=10;RankScore=fam1:12,fam2:3"])
    "spill" None
  = Ok [Write "spill"
          ("12.0" ++ TAB
           ++ vcf_line ["1"; "100"; "."; "A"; "T"; "."; "PASS";
                        "DP=10;RankScore=fam1:12,fam2:3"])].
Proof.
  apply (@rank_score_of_first_family int_literals _
           "DP=10;RankScore=fam1:12,fam2:3" "RankScore=fam1:12,fam2:3"
           "fam1:12,fam2:3" "fam1:12" "fam1" "12" ["DP=10"] [] ["fam2:3"] []
           "spill" None 12%Z); try reflexivity.
  - repeat constructor. exists "DP", "10". split; [reflexivity|discriminate].
  - constructor.
Defined.

(** X8: for such a line and a family id that none of the family entries
    carries, the helper writes the default key -100. *)
Theorem rank_score_of_other_family :
  forall `{FloatOps} (variant_line info a v family_id : string)
         (pre post : list string) (outfile : handle),
    nth_error (split tab variant_line) 7 = Some info ->
    split ";"%char info = pre ++ a :: post ->
    Forall other_annotation pre -> Forall other_annotation post ->
    split "="%char a = ["RankScore"; v] ->
    family_id <> EmptyString ->
    Forall (fun e => hd EmptyString (split ":"%char e) <> family_id)
      (split ","%char v) ->
    utils.print_variant_for_sorting variant_line outfile (Some family_id)
    = Ok [Write outfile ("-100" ++ TAB ++ variant_line)].
Proof.
  intros F variant_line info a v family_id pre post outfile Hinfo Hsplit Hpre
    Hpost Ha Hid Hall.
  unfold utils.print_variant_for_sorting, utils.rank_score_of, index.
  rewrite Hinfo. cbn [bind]. rewrite Hsplit.
  rewrite info_loop_unique with (v := v) by assumption.
  rewrite family_loop_no_match by assumption.
  cbn [bind]. now rewrite (join_split tab).
Qed.

Lemma rank_score_of_other_family_witness :
  @utils.print_variant_for_sorting int_literals
    (vcf_line ["1"; "100"; "."; "A"; "T"; "."; "PASS";
               "RankScore=fam1:12,fam2:3"])
    "spill" (Some "fam3")
  = Ok [Write "spill"
          ("-100" ++ TAB
           ++ vcf_line ["1"; "100"; "."; "A"; "T"; "."; "PASS";
                        "RankScore=fam1:12,fam2:3"])].
Proof.
  apply (@rank_score_of_other_family int_literals _
           "RankScore=fam1:12,fam2:3" "RankScore=fam1:12,fam2:3"
           "fam1:12,fam2:3" "fam3" [] [] "spill"); try reflexivity.
  - constructor.
  - constructor.
  - discriminate.
  - repeat constructor; discriminate.
Defined.

(** X9: a RankScore value whose first entry has no ':' makes the helper
    raise [IndexError] when no family id is given, and so does an entry
    that is the family id itself without a score. *)
Theorem rank_score_without_colon :
  forall `{FloatOps} (variant_line info a v entry : string)
         (pre post entries : list string) (outfile : handle)
         (family_id : option string),
    nth_error (split tab variant_line) 7 = Some info ->
    split ";"%char info = pre ++ a :: post ->
    Forall other_annotation pre ->
    split "="%char a = ["RankScore"; v] ->
    split ","%char v = entry :: entries ->
    split ":"%char entry = [entry] ->
    truthy family_id = false \/ family_id = Some entry ->
    utils.print_variant_for_sorting variant_line outfile family_id
    = Raise IndexError.
Proof.
  intros F variant_line info a v entry pre post entries outfile family_id
    Hinfo Hsplit Hpre Ha Hv He Hid.
  unfold utils.print_variant_for_sorting, utils.rank_score_of, index.
  rewrite Hinfo. cbn [bind]. rewrite Hsplit.
  assert (Hloop : forall key value rs,
            utils.info_loop family_id (pre ++ a :: post) key value rs
            = Raise IndexError).
  { clear Hsplit Hinfo.
    induction Hpre as [|b pre (k & w & Hb & Hk) _ IH]; intros key value rs.
    - cbn [app utils.info_loop]. rewrite Ha.
      cbn [length Nat.eqb nth_error].
      change (String.eqb "RankScore" "RankScore") with true. cbv iota.
      rewrite Hv. cbn [utils.family_loop]. rewrite He. unfold index.
      cbn [nth_error bind].
      destruct Hid as [Hf | ->]; [now rewrite Hf|].
      destruct entry as [|c entry]; [reflexivity|].
      cbn [truthy]. now rewrite String.eqb_refl.
    - cbn [app utils.info_loop]. rewrite Hb. cbn.
      destruct (String.eqb_spec k "RankScore") as [|_]; [contradiction|].
      apply IH. }
  now rewrite Hloop.
Qed.

Lemma rank_score_without_colon_witness :
  @utils.print_variant_for_sorting int_literals
    (vcf_line ["1"; "100"; "."; "A"; "T"; "."; "PASS"; "DP=10;RankScore=12"])
    "spill" None
  = Raise IndexError.
Proof.
  apply (@rank_score_without_colon int_literals _ "DP=10;RankScore=12"
           "RankScore=12" "12" "12" ["DP=10"] [] [] "spill" None);
    try reflexivity.
  - repeat constructor. exists "DP", "10". split; [reflexivity|discriminate].
  - left. reflexivity.
Defined.

(** X10: an empty family id counts as no family id: the helper does for
    [family_id=''] exactly what it does for [family_id=None]. *)
Theorem empty_family_id :
  forall `{FloatOps} (variant_line : string) (outfile : handle),
    utils.print_variant_for_sorting variant_line outfile (Some EmptyString)
    = utils.print_variant_for_sorting variant_line outfile None.
Proof.
  intros F variant_line outfile.
  unfold utils.print_variant_for_sorting, utils.rank_score_of.
  destruct (index (split tab variant_line) 7) as [info|]; [|reflexivity].
  cbn [bind]. now rewrite info_loop_empty_id.
Qed.

(** X11: whatever the extracting helper writes goes back through
    [print_variant] in mode ['modified'] to the stripped line it was made
    from, provided the text of a float is one column that does not start
    with '#'; the key it writes is -100 or a float. *)
Theorem sort_then_print :
  forall `{FloatOps} (variant_line text : string) (spill : handle)
         (family_id : option string) (outfile : option handle)
         (silent : bool),
    (forall x, key_ok (string_of_float x)) ->
    utils.print_variant_for_sorting variant_line spill family_id
    = Ok [Write spill text] ->
    vcf_tools.print_variant text outfile "modified" silent
    = emitted outfile silent (rstrip variant_line)
    /\ exists r, numeric_key r
                 /\ text = (format r ++ TAB ++ variant_line)%string.
Proof.
  intros F variant_line text spill family_id outfile silent Hfloat Hw.
  unfold utils.print_variant_for_sorting in Hw.
  destruct (utils.rank_score_of variant_line family_id) as [r|] eqn:Hr;
    [|discriminate].
  cbn [bind] in Hw. injection Hw as <-. rewrite (join_split tab).
  assert (Hnum : numeric_key r).
  { unfold utils.rank_score_of in Hr.
    destruct (index (split tab variant_line) 7) as [info|]; [|discriminate].
    cbn [bind] in Hr. eapply info_loop_numeric; [|exact Hr]. now left. }
  split; [|eauto].
  change (format r ++ String tab variant_line)%string
    with (format r ++ TAB ++ variant_line)%string.
  rewrite print_variant_modified; [reflexivity|].
  destruct Hnum as [-> | [x ->]]; [split; reflexivity | apply Hfloat].
Qed.

Lemma int_literals_key_ok (z : Z) : key_ok (@string_of_float int_literals z).
Proof.
  assert (Hd : forall u, contains tab (NilEmpty.string_of_uint u) = false
                         /\ contains hash (NilEmpty.string_of_uint u) = false).
  { induction u; simpl; tauto. }
  assert (Hi : contains tab (NilZero.string_of_int (Z.to_int z)) = false
               /\ contains hash (NilZero.string_of_int (Z.to_int z)) = false).
  { unfold NilZero.string_of_int, NilZero.string_of_uint.
    destruct (Z.to_int z) as [u|u]; destruct u; simpl;
      try tauto; apply Hd. }
  destruct Hi as [Ht Hh]. unfold key_ok. cbn [string_of_float int_literals].
  split; [|now rewrite contains_app, Ht].
  destruct (NilZero.string_of_int (Z.to_int z)) as [|c s]; [reflexivity|].
  simpl in *. apply orb_false_iff in Hh. tauto.
Qed.

Lemma sort_then_print_witness :
  vcf_tools.print_variant
    ("12.0" ++ TAB
     ++ vcf_line ["1"; "100"; "."; "A"; "T"; "."; "PASS";
                  "DP=10;RankScore=fam1:12,fam2:3"] ++ NL)
    (Some "out.vcf") "modified" false
  = [Write "out.vcf"
       (vcf_line ["1"; "100"; "."; "A"; "T"; "."; "PASS";
                  "DP=10;RankScore=fam1:12,fam2:3"] ++ NL)].
Proof.
  apply (@sort_then_print int_literals
           (vcf_line ["1"; "100"; "."; "A"; "T"; "."; "PASS";
                      "DP=10;RankScore=fam1:12,fam2:3"] ++ NL)
           _ "spill" None (Some "out.vcf") false).
  - exact int_literals_key_ok.
  - reflexivity.
Defined.

(* ------------------------------------------------------------------ *)
(** ** More on the driver: worker count, header loop and set-up *)

(** X12: the adjustment for CADD files never lowers the number of workers
    the caller asked for, changes nothing on a machine with at most four
    CPUs, and never gives more than the larger of the request and the
    number of CPUs. *)
Theorem num_annotators_bounds :
  forall (o : cadd_options) (processes cpu_count : Z),
    (processes <= num_annotators o processes cpu_count)%Z
    /\ (num_annotators o processes cpu_count
        <= Z.max processes cpu_count)%Z
    /\ ((cpu_count <= 4)%Z ->
        num_annotators o processes cpu_count = processes).
Proof.
  intros o processes cpu_count. unfold num_annotators.
  destruct (any_cadd_file o);
    [destruct (Z.eqb_spec processes (Z.min 4 cpu_count))|]; lia.
Qed.

Lemma num_annotators_bounds_witness :
  num_annotators
    {| cadd_file := Some "cadd.tsv.gz"; cadd_1000g := None;
       cadd_exac := None; cadd_esp := None; cadd_indels := None |} 2 2
  = 2%Z.
Proof.
  apply (num_annotators_bounds
           {| cadd_file := Some "cadd.tsv.gz"; cadd_1000g := None;
              cadd_exac := None; cadd_esp := None; cadd_indels := None |}
           2 2). lia.
Defined.

Import annotate_setup.

Lemma data_or_header (lines : list string) :
  length (data_records lines) + length (filter is_header lines)
  = length lines.
Proof.
  induction lines as [|line lines IH]; [reflexivity|].
  rewrite data_records_cons. cbn [filter length]. unfold is_header at 1.
  destruct (startswith hash (rstrip line)); cbn [negb length]; lia.
Qed.

(** X13: the two loops over the input together: every line is parsed as a
    header line (the leading lines whose stripped text starts with '#'),
    queued as a record, or, when it looks like a header line but comes
    after the first record, dropped by both loops. *)
Theorem header_lines_partition :
  forall (lines : list string),
    length (read_header lines) + length (data_records lines)
    + length (filter is_header (skipn (length (read_header lines)) lines))
    = length lines
    /\ (forall pre d post,
          lines = pre ++ d :: post ->
          forallb is_header pre = true -> is_header d = false ->
          length (read_header lines) = length pre
          /\ data_records lines = rstrip d :: data_records post).
Proof.
  intros lines. split.
  - induction lines as [|line lines IH]; [reflexivity|].
    cbn [read_header]. rewrite data_records_cons.
    destruct (startswith hash (rstrip line)) eqn:Hh; cbn [negb length skipn].
    + lia.
    + pose proof (data_or_header (line :: lines)) as Hd.
      rewrite data_records_cons, Hh in Hd. cbn [negb] in Hd.
      cbn [length] in *. lia.
  - intros pre d post -> Hpre Hd. unfold is_header in Hd.
    induction pre as [|line pre IH]; cbn [app read_header].
    + rewrite data_records_cons, Hd. split; reflexivity.
    + cbn [forallb] in Hpre. apply andb_true_iff in Hpre as [Hl Hpre].
      unfold is_header in Hl. rewrite data_records_cons, Hl.
      cbn [negb length]. destruct (IH Hpre) as [IH1 IH2].
      split; [now rewrite IH1 | exact IH2].
Qed.

Lemma header_lines_partition_witness :
  length (read_header ["##meta"; "#CHROM"; "1"; "#late"; "2"]) = 2
  /\ data_records ["##meta"; "#CHROM"; "1"; "#late"; "2"] = ["1"; "2"].
Proof.
  destruct (header_lines_partition ["##meta"; "#CHROM"; "1"; "#late"; "2"])
    as [_ Hpart].
  destruct (Hpart ["##meta"; "#CHROM"] "1" ["#late"; "2"] eq_refl eq_refl
              eq_refl) as [Hh Hd].
  split; [exact Hh | exact Hd].
Defined.

Lemma dict_get_set (k k' : string) (v : argument) (d : dict) :
  dict_get k (dict_set k' v d)
  = if String.eqb k k' then Some v else dict_get k d.
Proof.
  induction d as [|[k0 v0] d IH]; cbn [dict_set dict_get].
  - reflexivity.
  - destruct (String.eqb_spec k' k0) as [->|Hne]; cbn [dict_get].
    + destruct (String.eqb k k0); reflexivity.
    + rewrite IH. destruct (String.eqb_spec k k0) as [->|_]; [|reflexivity].
      destruct (String.eqb_spec k0 k'); [congruence | reflexivity].
Qed.

Lemma dict_get_set_path (k k' : string) (path : option string) (d : dict) :
  dict_get k (set_path k' path d)
  = if truthy path && String.eqb k k' then option_map ArgPath path
    else dict_get k d.
Proof.
  unfold set_path. destruct (truthy path) eqn:Hp; [|reflexivity].
  destruct path as [p|]; [|discriminate]. rewrite dict_get_set.
  destruct (String.eqb k k'); reflexivity.
Qed.

Lemma any_cadd_file_orb (o : cadd_options) :
  any_cadd_file o
  = truthy (cadd_file o) || truthy (cadd_1000g o) || truthy (cadd_exac o)
    || truthy (cadd_esp o) || truthy (cadd_indels o).
Proof.
  unfold any_cadd_file.
  destruct (truthy (cadd_file o)), (truthy (cadd_1000g o)),
    (truthy (cadd_exac o)), (truthy (cadd_esp o)), (truthy (cadd_indels o));
    reflexivity.
Qed.

Lemma added_ids_eq (o : options) :
  added_ids o
  = (if annotate_regions o then ["Annotation"; "Exonic"] else [])
    ++ (if truthy (exac o) then ["ExACAF"] else [])
    ++ (if truthy (thousand_g o) then ["1000GAF"] else [])
    ++ (if any_cadd_file (cadd o)
        then "CADD" :: (if cadd_raw o then ["CADD_raw"] else [])
        else []).
Proof.
  unfold added_ids, setup.
  destruct (annotate_regions o), (truthy (exac o)), (truthy (thousand_g o)),
    (any_cadd_file (cadd o)), (cadd_raw o); reflexivity.
Qed.

Lemma annotator_arguments_get (o : options) (k : string) :
  dict_get k (annotator_arguments o)
  = if String.eqb k "cadd_raw" then Some (ArgBool (cadd_raw o))
    else if truthy (cadd_indels (cadd o)) && String.eqb k "cadd_InDels"
    then option_map ArgPath (cadd_indels (cadd o))
    else if truthy (cadd_esp (cadd o)) && String.eqb k "cadd_ESP"
    then option_map ArgPath (cadd_esp (cadd o))
    else if truthy (cadd_exac (cadd o)) && String.eqb k "cadd_exac"
    then option_map ArgPath (cadd_exac (cadd o))
    else if truthy (cadd_1000g (cadd o)) && String.eqb k "cadd_1000g"
    then option_map ArgPath (cadd_1000g (cadd o))
    else if truthy (cadd_file (cadd o)) && String.eqb k "cadd_file"
    then option_map ArgPath (cadd_file (cadd o))
    else if truthy (thousand_g o) && String.eqb k "thousand_g"
    then option_map ArgPath (thousand_g o)
    else if truthy (exac o) && String.eqb k "exac"
    then option_map ArgPath (exac o)
    else if annotate_regions o && String.eqb k "exon_trees"
    then Some ArgExonTrees
    else if annotate_regions o && String.eqb k "gene_trees"
    then Some ArgGeneTrees
    else if String.eqb k "header_line" then Some ArgHeader
    else None.
Proof.
  unfold annotator_arguments, setup.
  destruct (annotate_regions o) eqn:Hr, (truthy (exac o)) eqn:He,
    (truthy (thousand_g o)) eqn:Ht, (any_cadd_file (cadd o)) eqn:Ha,
    (cadd_raw o) eqn:Hc;
    cbn [fst]; rewrite ?dict_get_set, ?dict_get_set_path, ?dict_get_set;
    rewrite ?dict_get_set_path, ?dict_get_set; cbn [dict_get andb];
    rewrite ?He, ?Ht; cbn [andb];
    destruct (String.eqb_spec k "cadd_raw") as [->|Hk]; try reflexivity;
    simpl String.eqb; rewrite ?andb_false_r; reflexivity.
Qed.

Lemma passed_path (path : option string) :
  (if truthy path then option_map ArgPath path else None) <> None
  <-> truthy path = true.
Proof.
  destruct path as [[|c p]|]; cbn; split; congruence.
Qed.

Ltac get_key :=
  unfold passed; rewrite annotator_arguments_get; simpl String.eqb;
  rewrite ?andb_false_r, ?andb_true_r; cbv iota.

Lemma passed_exac (o : options) :
  passed o "exac" <-> truthy (exac o) = true.
Proof. get_key. apply passed_path. Qed.

Lemma passed_thousand_g (o : options) :
  passed o "thousand_g" <-> truthy (thousand_g o) = true.
Proof. get_key. apply passed_path. Qed.

Lemma passed_cadd_file (o : options) :
  passed o "cadd_file" <-> truthy (cadd_file (cadd o)) = true.
Proof. get_key. apply passed_path. Qed.

Lemma passed_cadd_1000g (o : options) :
  passed o "cadd_1000g" <-> truthy (cadd_1000g (cadd o)) = true.
Proof. get_key. apply passed_path. Qed.

Lemma passed_cadd_exac (o : options) :
  passed o "cadd_exac" <-> truthy (cadd_exac (cadd o)) = true.
Proof. get_key. apply passed_path. Qed.

Lemma passed_cadd_esp (o : options) :
  passed o "cadd_ESP" <-> truthy (cadd_esp (cadd o)) = true.
Proof. get_key. apply passed_path. Qed.

Lemma passed_cadd_indels (o : options) :
  passed o "cadd_InDels" <-> truthy (cadd_indels (cadd o)) = true.
Proof. get_key. apply passed_path. Qed.

Lemma passed_gene_trees (o : options) :
  passed o "gene_trees" <-> annotate_regions o = true.
Proof. get_key. destruct (annotate_regions o); split; congruence. Qed.

Lemma passed_exon_trees (o : options) :
  passed o "exon_trees" <-> annotate_regions o = true.
Proof. get_key. destruct (annotate_regions o); split; congruence. Qed.

Ltac in_added o :=
  rewrite added_ids_eq;
  destruct (annotate_regions o), (truthy (exac o)), (truthy (thousand_g o)),
    (any_cadd_file (cadd o)), (cadd_raw o); cbn [app In];
  split; intros Hin;
  repeat match goal with
         | H : _ \/ _ |- _ => destruct H
         | H : _ /\ _ |- _ => destruct H
         | H : False |- _ => destruct H
         end;
  try discriminate; auto 8.

Lemma in_exac (o : options) :
  In "ExACAF" (added_ids o) <-> truthy (exac o) = true.
Proof. in_added o. Qed.

Lemma in_thousand_g (o : options) :
  In "1000GAF" (added_ids o) <-> truthy (thousand_g o) = true.
Proof. in_added o. Qed.

Lemma in_annotation (o : options) :
  In "Annotation" (added_ids o) <-> annotate_regions o = true.
Proof. in_added o. Qed.

Lemma in_exonic (o : options) :
  In "Exonic" (added_ids o) <-> annotate_regions o = true.
Proof. in_added o. Qed.

Lemma in_cadd (o : options) :
  In "CADD" (added_ids o) <-> any_cadd_file (cadd o) = true.
Proof. in_added o. Qed.

Lemma in_cadd_raw (o : options) :
  In "CADD_raw" (added_ids o) <->
  any_cadd_file (cadd o) = true /\ cadd_raw o = true.
Proof. in_added o. Qed.

Lemma added_ids_nodup (o : options) : NoDup (added_ids o).
Proof.
  rewrite added_ids_eq.
  destruct (annotate_regions o), (truthy (exac o)), (truthy (thousand_g o)),
    (any_cadd_file (cadd o)), (cadd_raw o); cbn [app];
    repeat (constructor; [cbn [In]; intros Hin;
                          repeat (destruct Hin as [Hin|Hin];
                                  [discriminate Hin|]);
                          exact Hin|]);
    constructor.
Qed.

(** X14: the header and the workers are set up consistently: no metadata
    id is added twice; ExACAF, 1000GAF, Annotation and Exonic are added
    exactly when the source they describe is passed to the workers; CADD
    is added exactly when one of the five CADD files is passed; CADD_raw is
    added exactly when CADD is added and the workers are told to annotate
    raw scores. The workers always get the [cadd_raw] flag and the header
    line. *)
Theorem setup_consistent :
  forall (o : options),
    NoDup (added_ids o)
    /\ (In "ExACAF" (added_ids o) <-> passed o "exac")
    /\ (In "1000GAF" (added_ids o) <-> passed o "thousand_g")
    /\ (In "Annotation" (added_ids o) <-> passed o "gene_trees")
    /\ (In "Exonic" (added_ids o) <-> passed o "exon_trees")
    /\ (In "CADD" (added_ids o) <->
        passed o "cadd_file" \/ passed o "cadd_1000g"
        \/ passed o "cadd_exac" \/ passed o "cadd_ESP"
        \/ passed o "cadd_InDels")
    /\ (In "CADD_raw" (added_ids o) <->
        In "CADD" (added_ids o)
        /\ dict_get "cadd_raw" (annotator_arguments o)
           = Some (ArgBool true))
    /\ dict_get "cadd_raw" (annotator_arguments o)
       = Some (ArgBool (cadd_raw o))
    /\ dict_get "header_line" (annotator_arguments o) = Some ArgHeader.
Proof.
  intros o.
  assert (Hraw : dict_get "cadd_raw" (annotator_arguments o)
                 = Some (ArgBool (cadd_raw o)))
    by (rewrite annotator_arguments_get; reflexivity).
  split; [apply added_ids_nodup|].
  split; [now rewrite in_exac, passed_exac|].
  split; [now rewrite in_thousand_g, passed_thousand_g|].
  split; [now rewrite in_annotation, passed_gene_trees|].
  split; [now rewrite in_exonic, passed_exon_trees|].
  split.
  { rewrite in_cadd, passed_cadd_file, passed_cadd_1000g, passed_cadd_exac,
      passed_cadd_esp, passed_cadd_indels, any_cadd_file_orb.
    rewrite !orb_true_iff. tauto. }
  split.
  { rewrite in_cadd_raw, in_cadd, Hraw.
    split; [intros [Ha ->]; now split|].
    intros [Ha Hr]. split; [exact Ha | congruence]. }
  split; [exact Hraw|]. get_key. reflexivity.
Qed.

Lemma setup_consistent_witness :
  In "CADD" (added_ids
               {| annotate_regions := false;
                  cadd := {| cadd_file := None; cadd_1000g := None;
                             cadd_exac := None;
                             cadd_esp := Some "esp.tsv.gz";
                             cadd_indels := None |};
                  thousand_g := None; exac := None; cadd_raw := true |})
  /\ In "CADD_raw"
       (added_ids
          {| annotate_regions := false;
             cadd := {| cadd_file := None; cadd_1000g := None;
                        cadd_exac := None; cadd_esp := Some "esp.tsv.gz";
                        cadd_indels := None |};
             thousand_g := None; exac := None; cadd_raw := true |}).
Proof.
  destruct (setup_consistent
              {| annotate_regions := false;
                 cadd := {| cadd_file := None; cadd_1000g := None;
                            cadd_exac := None; cadd_esp := Some "esp.tsv.gz";
                            cadd_indels := None |};
                 thousand_g := None; exac := None; cadd_raw := true |})
    as (_ & _ & _ & _ & _ & Hcadd & Hraw & _).
  assert (Hc : In "CADD"
                 (added_ids
                    {| annotate_regions := false;
                       cadd := {| cadd_file := None; cadd_1000g := None;
                                  cadd_exac := None;
                                  cadd_esp := Some "esp.tsv.gz";
                                  cadd_indels := None |};
                       thousand_g := None; exac := None;
                       cadd_raw := true |})).
  { apply Hcadd. right. right. right. left. vm_compute. discriminate. }
  split; [exact Hc|]. apply Hraw. split; [exact Hc | reflexivity].
Defined.

(* ------------------------------------------------------------------ *)
(** ** More on the pipeline *)

Section MoreGuarantees.
Context `{FloatOps} (env : collaborators) (args : arguments).

(** A property that holds at the start and that every step keeps, given
    the invariant, holds along every run. *)
Lemma run_keeps (P : state -> Prop) (schedule : list action) (s s' : state) :
  (forall a s1 s2,
     inv env args s1 -> P s1 -> exec env args a s1 = Some s2 -> P s2) ->
  inv env args s -> P s -> run env args schedule s = Some s' -> P s'.
Proof.
  intros Hstep. revert s.
  induction schedule as [|a schedule IH]; simpl; intros s Hinv HP Hrun.
  - now injection Hrun as <-.
  - destruct (annotate_variant.exec env args a s) as [s1|] eqn:Hex;
      [|discriminate].
    apply (IH s1); [eapply exec_inv; eassumption | eauto | assumption].
Qed.

Lemma exec_queue_bound (a : action) (s s' : state) :
  length (variant_queue s) <= maxsize ->
  exec env args a s = Some s' ->
  length (variant_queue s') <= maxsize.
Proof.
  intros Hle Hex. destruct s as [d q u r ws p t c pu pr].
  destruct a as [|i|]; simpl in Hex.
  - unfold exec_driver in Hex. simpl in *.
    destruct d as [|[|line rest]|[|k]| | | | | | | |]; simpl in *;
      repeat match type of Hex with
             | context [(length q <? maxsize)%nat] =>
                 destruct (Nat.ltb_spec (length q) maxsize)
             | context [if ?b then _ else _] => destruct b
             | context [match ?x with _ => _ end] => destruct x
             end;
      try discriminate; injection Hex as <-; simpl;
      rewrite ?length_app; simpl; lia.
  - unfold exec_worker in Hex. simpl in *.
    destruct (nth_error ws i) as [[| | | |]|]; try discriminate;
      [destruct q as [|[record|] q]; try discriminate| | |];
      injection Hex as <-; simpl in *; lia.
  - unfold exec_printer in Hex. simpl in *.
    destruct p; try discriminate.
    destruct r as [|[record|] r]; [discriminate | |].
    + destruct t; [|discriminate]. injection Hex as <-. exact Hle.
    + injection Hex as <-. exact Hle.
Qed.

Lemma exec_not_printed (a : action) (s s' : state) :
  (printed s = [] \/ drv s = DRemove \/ drv s = DEnd \/ drv s = DCrashed) ->
  exec env args a s = Some s' ->
  printed s' = [] \/ drv s' = DRemove \/ drv s' = DEnd
  \/ drv s' = DCrashed.
Proof.
  intros HP Hex. destruct s as [d q u r ws p t c pu pr].
  destruct a as [|i|]; simpl in Hex.
  - unfold exec_driver in Hex. simpl in *.
    destruct d as [|[|line rest]|[|k]| | | | | | | |]; simpl in *;
      repeat match type of Hex with
             | context [if ?b then _ else _] => destruct b
             | context [match ?x with _ => _ end] => destruct x
             end;
      try discriminate; injection Hex as <-; simpl;
      destruct HP as [HP|[HP|[HP|HP]]]; try discriminate HP; auto.
  - unfold exec_worker in Hex. simpl in *.
    destruct (nth_error ws i) as [[| | | |]|]; try discriminate;
      [destruct q as [|[record|] q]; try discriminate| | |];
      injection Hex as <-; simpl in *; exact HP.
  - unfold exec_printer in Hex. simpl in *.
    destruct p; try discriminate.
    destruct r as [|[record|] r]; [discriminate | |].
    + destruct t; [|discriminate]. injection Hex as <-. exact HP.
    + injection Hex as <-. exact HP.
Qed.

Lemma exec_unserved (a : action) (s s' : state) :
  pool args = 0 -> records args <> [] ->
  inv env args s -> unserved s ->
  exec env args a s = Some s' -> unserved s'.
Proof.
  intros Hpool Hrec Hinv (Hws & Hr & Hq & Hj) Hex.
  pose proof (inv_count env args s Hinv) as I1.
  pose proof (inv_pushed env args s Hinv) as I9.
  destruct s as [d q u r ws p t c pu pr]. simpl in *. subst ws r q.
  destruct a as [|i|]; simpl in Hex.
  - unfold exec_driver in Hex. simpl in *. unfold pool in Hpool.
    destruct d as [|[|line rest]|[|k]| | | | | | | |]; simpl in *;
      try discriminate.
    + injection Hex as <-. rewrite Hpool. repeat split.
    + injection Hex as <-. repeat split.
    + destruct (negb (startswith hash (rstrip line)));
        [destruct (length pu <? maxsize)%nat; [|discriminate]|];
        injection Hex as <-; repeat split.
    + injection Hex as <-. repeat split.
    + destruct (length pu <? maxsize)%nat; [|discriminate].
      injection Hex as <-. repeat split.
    + exfalso. destruct (Nat.eqb_spec u 0) as [Hu|]; [|discriminate].
      unfold pool in I9. rewrite Hpool in I9. simpl in I9.
      rewrite !app_nil_r in I9. subst pu. rewrite length_map in I1.
      destruct (records args); [congruence | simpl in I1; lia].
  - unfold exec_worker in Hex. simpl in Hex. destruct i; discriminate.
  - unfold exec_printer in Hex. simpl in Hex. destruct p; discriminate.
Qed.

End MoreGuarantees.

(** X15: the work queue never holds more than 1000 jobs: the driver does
    not put a job while the queue is full. *)
Theorem queue_bounded :
  forall `{FloatOps} (env : collaborators) (args : arguments)
         (schedule : list action) (s : state),
    run env args schedule init = Some s ->
    length (variant_queue s) <= 1000.
Proof.
  intros F env args schedule s Hrun.
  apply (run_keeps env args
           (fun s => length (variant_queue s) <= maxsize) schedule init s);
    [|apply init_inv | simpl; unfold maxsize; lia | exact Hrun].
  intros a s1 s2 _. apply exec_queue_bound.
Qed.

Lemma queue_bounded_witness :
  exists s,
    run (example_env false false) example_args
      [Driver; Driver; Driver; Driver; Driver] init = Some s
    /\ length (variant_queue s) = 2.
Proof.
  destruct (run (example_env false false) example_args
              [Driver; Driver; Driver; Driver; Driver] init) as [s|] eqn:Hrun;
    [|vm_compute in Hrun; discriminate].
  pose proof (@queue_bounded int_literals (example_env false false)
                example_args _ s Hrun) as Hle.
  exists s. split; [reflexivity|].
  vm_compute in Hrun. injection Hrun as <-. reflexivity.
Defined.

(** X16: with no worker ([num_annotators] at most 0) and at least one data
    record the driver never gets past [variant_queue.join()]: the run does
    not reach the sort, and once the driver waits in the join nothing can
    move any more. *)
Theorem no_worker_no_return :
  forall `{FloatOps} (env : collaborators) (args : arguments)
         (schedule : list action) (s : state),
    (workers args <= 0)%Z ->
    records args <> [] ->
    run env args schedule init = Some s ->
    joined (drv s) = false
    /\ (drv s = DJoinQueue -> forall a, exec env args a s = None).
Proof.
  intros F env args schedule s Hw Hrec Hrun.
  assert (Hpool : pool args = 0) by (unfold pool; lia).
  assert (Hu : unserved s).
  { apply (run_keeps env args unserved schedule init s);
      [|apply init_inv | repeat split | exact Hrun].
    intros a s1 s2. now apply exec_unserved. }
  destruct Hu as (Hws & Hr & Hq & Hj). split; [exact Hj|].
  intros Hd a.
  pose proof (reachable_inv env args schedule s Hrun) as Hinv.
  pose proof (inv_count env args s Hinv) as I1.
  pose proof (inv_pushed env args s Hinv) as I9.
  rewrite Hd in I9. cbn [pending to_push map app] in I9.
  rewrite Hpool in I9. cbn [repeat] in I9. rewrite !app_nil_r in I9.
  destruct a as [|i|]; simpl.
  - unfold exec_driver. rewrite Hd.
    rewrite I1, Hq, I9, Hws, length_map. simpl.
    destruct (records args); [congruence | reflexivity].
  - unfold exec_worker. rewrite Hws. destruct i; reflexivity.
  - unfold exec_printer. rewrite Hr. destruct (var_printer s); reflexivity.
Qed.

Lemma no_worker_no_return_witness :
  exists s,
    run (example_env false false)
      {| variant_file := ["#CHROM"; "1"]; workers := 0;
         outfile := None; silent := false |}
      [Driver; Driver; Driver; Driver; Driver] init = Some s
    /\ drv s = DJoinQueue
    /\ exec (example_env false false)
         {| variant_file := ["#CHROM"; "1"]; workers := 0;
            outfile := None; silent := false |} Driver s = None.
Proof.
  destruct (run (example_env false false)
              {| variant_file := ["#CHROM"; "1"]; workers := 0;
                 outfile := None; silent := false |}
              [Driver; Driver; Driver; Driver; Driver] init)
    as [s|] eqn:Hrun; [|vm_compute in Hrun; discriminate].
  assert (Hd : drv s = DJoinQueue).
  { vm_compute in Hrun. injection Hrun as <-. reflexivity. }
  exists s. split; [reflexivity|]. split; [exact Hd|].
  apply (@no_worker_no_return int_literals (example_env false false)
           {| variant_file := ["#CHROM"; "1"]; workers := 0;
              outfile := None; silent := false |}
           [Driver; Driver; Driver; Driver; Driver] s);
    [simpl; lia | vm_compute; discriminate | exact Hrun | exact Hd].
Defined.


